(** * Social-media content creator: the content pipeline, embedded and verified

    The development follows the Python sources
    [content_creator/nodes.py], [content_creator/workflow.py],
    [llm_integration.py] and [enhanced_workflow.py], and the naming of the
    downloaded file in [chat_ui.py].

    Python values are modelled as follows.
    - [str] is a list of Unicode code points ([N]); [len] is [length].
    - [int] is [Z]; list slicing [l[:n]] keeps Python's meaning for a
      negative bound.
    - A [dict] whose iteration order matters is an association list.
    - The process-wide random generator and the text-completion service
      are fields of an explicit [world] threaded through a state monad;
      an uncaught exception and an exhausted loop budget are explicit
      outcomes. *)

From Stdlib Require Import String Ascii.
From Stdlib Require Import List ZArith NArith Lia Bool Permutation.
Import ListNotations.

(* ================================================================== *)
(** ** Python strings *)
(* ================================================================== *)

Definition char := N.
Definition str := list char.

(** An ASCII literal of the source as a [str]. *)
Definition py (s : string) : str :=
  map N_of_ascii (list_ascii_of_string s).

Definition space : char := 32%N.
Definition hash : char := 35%N.
Definition hyphen : char := 45%N.

Fixpoint str_eqb (a b : str) : bool :=
  match a, b with
  | [], [] => true
  | x :: a', y :: b' => N.eqb x y && str_eqb a' b'
  | _, _ => false
  end.

(** [s.startswith(p)] *)
Fixpoint startswith (p s : str) : bool :=
  match p, s with
  | [], _ => true
  | x :: p', y :: s' => N.eqb x y && startswith p' s'
  | _ :: _, [] => false
  end.

(** [needle in hay] on strings. *)
Fixpoint contains (needle hay : str) : bool :=
  startswith needle hay ||
  match hay with
  | [] => false
  | _ :: hay' => contains needle hay'
  end.

(** [s.replace(" ", "")] *)
Definition remove_spaces (s : str) : str :=
  filter (fun c => negb (N.eqb c space)) s.

(** [s.replace("-", " ")] *)
Definition hyphens_to_spaces (s : str) : str :=
  map (fun c => if N.eqb c hyphen then space else c) s.

(** [str.isspace] on one code point: the code points that [split()] and
    [strip()] treat as whitespace. *)
Definition isspace (c : char) : bool :=
  ((9 <=? c) && (c <=? 13) || (28 <=? c) && (c <=? 32) ||
   (c =? 133) || (c =? 160) || (c =? 5760) ||
   (8192 <=? c) && (c <=? 8202) || (c =? 8232) || (c =? 8233) ||
   (c =? 8239) || (c =? 8287) || (c =? 12288))%N.

(** [s.split()]: the maximal runs of non-whitespace, in order.  [cur] is
    the current run, reversed. *)
Definition flush (cur : str) : list str :=
  match cur with
  | [] => []
  | _ => [rev cur]
  end.

Fixpoint split_run (cur s : str) : list str :=
  match s with
  | [] => flush cur
  | c :: s' =>
      if isspace c then flush cur ++ split_run [] s'
      else split_run (c :: cur) s'
  end.

Definition split (s : str) : list str := split_run [] s.

(** [s.strip()] *)
Fixpoint lstrip (s : str) : str :=
  match s with
  | c :: s' => if isspace c then lstrip s' else s
  | [] => []
  end.

Definition strip (s : str) : str := rev (lstrip (rev (lstrip s))).

(** [sep.join(parts)] *)
Fixpoint join (sep : str) (parts : list str) : str :=
  match parts with
  | [] => []
  | [p] => p
  | p :: rest => p ++ sep ++ join sep rest
  end.

(** [s.split(" ")]: the pieces between single space characters. *)
Fixpoint split_on (c : char) (s : str) : list str :=
  match s with
  | [] => [[]]
  | x :: s' =>
      if N.eqb x c then [] :: split_on c s'
      else match split_on c s' with
           | p :: ps => (x :: p) :: ps
           | [] => [[x]]
           end
  end.

(** [l[:n]] for a list and an [int] bound: a negative bound counts from
    the end, and both are clamped to the list. *)
Definition slice_to {A} (n : Z) (l : list A) : list A :=
  if (n <? 0)%Z then firstn (length l - Z.to_nat (- n)) l
  else firstn (Z.to_nat n) l.

(** [list(dict.fromkeys(l))]: the first occurrence of every key, in
    order.  [seen] is the dict under construction. *)
Fixpoint fromkeys_from (seen l : list str) : list str :=
  match l with
  | [] => []
  | x :: l' =>
      if existsb (str_eqb x) seen then fromkeys_from seen l'
      else x :: fromkeys_from (x :: seen) l'
  end.

Definition fromkeys (l : list str) : list str := fromkeys_from [] l.

(** *** Case mapping and character classes

    [str.lower], [str.capitalize] and the regular-expression class [\w]
    come from the interpreter's Unicode tables.  The development is
    parametric in them; what it uses of them is that they are the usual
    maps on ASCII text and that capitalising never produces a space. *)

Definition is_ascii (c : char) : Prop := (c < 128)%N.

Definition ascii_lower (c : char) : char :=
  if ((65 <=? c) && (c <=? 90))%N then (c + 32)%N else c.

Definition ascii_upper (c : char) : char :=
  if ((97 <=? c) && (c <=? 122))%N then (c - 32)%N else c.

Definition ascii_capitalize (s : str) : str :=
  match s with
  | [] => []
  | c :: s' => ascii_upper c :: map ascii_lower s'
  end.

Definition ascii_isword (c : char) : bool :=
  ((48 <=? c) && (c <=? 57) || (65 <=? c) && (c <=? 90) ||
   (97 <=? c) && (c <=? 122) || (c =? 95))%N.

Class Unicode := {
  lower : str -> str;
  capitalize : str -> str;
  isword : char -> bool;
  lower_ascii : forall s, Forall is_ascii s -> lower s = map ascii_lower s;
  capitalize_ascii :
    forall s, Forall is_ascii s -> capitalize s = ascii_capitalize s;
  capitalize_no_space : forall s, ~ In space s -> ~ In space (capitalize s);
  isword_ascii : forall c, is_ascii c -> isword c = ascii_isword c
}.

(* ================================================================== *)
(** ** Outcomes, the world and its monad *)
(* ================================================================== *)

Inductive exn := IndexError | ValueError.

(** What a call does: return, raise an exception nobody catches, or use
    up the iteration budget of a [while] loop. *)
Inductive outcome (A : Type) :=
| Returns (a : A)
| Raises (e : exn)
| OutOfFuel.

Arguments Returns {A} a.
Arguments Raises {A} e.
Arguments OutOfFuel {A}.

(** One JSON value of a decoded array, as far as the validation looks
    at it: a string or anything else. *)
Inductive json := JString (s : str) | JOther.

(** What the topic request observes of the service: the call, the
    response indexing or [json.loads] raised; [re.search] found no
    bracketed array; or the decoded array. *)
Inductive topics_reply :=
| TopicsRaised
| TopicsNoArray
| TopicsDecoded (items : list json).

(** What a caption or hashtag request observes: an exception or the
    response text. *)
Inductive completion := Raised | Text (s : str).

(** The shared random generator is an unbounded tape of draws with a
    read position; the completion service answers its [asked]-th call
    from a script.  Every behaviour of either is some [world]. *)
Record world := mkWorld {
  entropy : nat -> nat;
  drawn : nat;
  topics_service : nat -> topics_reply;
  text_service : nat -> completion;
  asked : nat
}.

Definition M (A : Type) : Type := world -> outcome (A * world).

Definition ret {A} (a : A) : M A := fun w => Returns (a, w).

Definition bind {A B} (m : M A) (k : A -> M B) : M B :=
  fun w =>
    match m w with
    | Returns (a, w') => k a w'
    | Raises e => Raises e
    | OutOfFuel => OutOfFuel
    end.

Definition raise {A} (e : exn) : M A := fun _ => Raises e.

Definition lift {A} (o : outcome A) : M A :=
  fun w =>
    match o with
    | Returns a => Returns (a, w)
    | Raises e => Raises e
    | OutOfFuel => OutOfFuel
    end.

Declare Scope py_scope.
Delimit Scope py_scope with py.
Notation "x <- m ;; k" := (bind m (fun x => k))
  (at level 61, m at next level, right associativity) : py_scope.
Notation "' pat <- m ;; k" := (bind m (fun x => match x with pat => k end))
  (at level 61, pat pattern, m at next level, right associativity) : py_scope.
Open Scope py_scope.

(** [l[i]] for an index that is not negative. *)
Definition index {A} (l : list A) (i : nat) : M A :=
  match nth_error l i with
  | Some x => ret x
  | None => raise IndexError
  end.

(** [l[i] = v] *)
Fixpoint assign {A} (l : list A) (i : nat) (v : A) : option (list A) :=
  match l, i with
  | [], _ => None
  | _ :: l', O => Some (v :: l')
  | x :: l', S i' => option_map (cons x) (assign l' i' v)
  end.

Definition store {A} (l : list A) (i : nat) (v : A) : M (list A) :=
  match assign l i v with
  | Some l' => ret l'
  | None => raise IndexError
  end.

(** *** The [random] module

    [_randbelow(n)] reads the next draw of the tape. *)
Definition randbelow (n : nat) : M nat :=
  fun w =>
    Returns (match n with O => O | _ => entropy w (drawn w) mod n end,
             mkWorld (entropy w) (S (drawn w)) (topics_service w)
                     (text_service w) (asked w)).

(** [random.choice(seq)] *)
Definition choice {A} (seq : list A) : M A :=
  match length seq with
  | O => raise IndexError
  | n => j <- randbelow n ;; index seq j
  end.

(** [random.sample(population, k)] for a population of at most 21
    items: [k] rounds, each drawing a position among the [n] items not
    yet selected and moving the last of them into the vacancy. *)
Fixpoint sample_rounds {A} (k n : nat) (pool : list A) : M (list A) :=
  match k with
  | O => ret []
  | S k' =>
      j <- randbelow n ;;
      x <- index pool j ;;
      y <- index pool (n - 1) ;;
      pool' <- store pool j y ;;
      rest <- sample_rounds k' (n - 1) pool' ;;
      ret (x :: rest)
  end.

Definition sample {A} (population : list A) (k : nat) : M (list A) :=
  if length population <? k then raise ValueError
  else sample_rounds k (length population) population.

(** *** The completion service *)
Definition advance (w : world) : world :=
  mkWorld (entropy w) (drawn w) (topics_service w) (text_service w)
          (S (asked w)).

Definition request_topics : M topics_reply :=
  fun w => Returns (topics_service w (asked w), advance w).

Definition request_text : M completion :=
  fun w => Returns (text_service w (asked w), advance w).

(* ================================================================== *)
(** ** content_creator/nodes.py *)
(* ================================================================== *)

(** [ContentState] and the rows of [content_plan]. *)
Record ContentEntry := mkEntry {
  Day : Z;
  Topic : str;
  Caption : str;
  Hashtags : str
}.

Record ContentState := mkState {
  brand_theme : str;
  days : Z;
  topics : list str;
  content_plan : list ContentEntry
}.

Definition fitness_topics : list str := map py [
  "Morning Workout Routines"; "Healthy Breakfast Ideas"; "Office Stretches";
  "Quick Lunch Workouts"; "Evening Relaxation Techniques"; "Weekend Fitness Challenges";
  "Desk Yoga Poses"; "Healthy Snack Ideas"; "Posture Correction Exercises";
  "Lunch Break Walks"; "Stair Workout Ideas"; "Healthy Meal Prep Tips";
  "Standing Desk Exercises"; "Mindfulness Practices"; "Hydration Tips";
  "Quick Stretches for Back Pain"; "Healthy Takeout Options"; "Sleep Improvement Tips";
  "Stress Relief Exercises"; "Healthy Dessert Recipes"; "Commute Workout Ideas";
  "Healthy Grocery List"; "Quick Workout for Busy Days"; "Healthy Meal Swaps";
  "Deskercise Routines"; "Healthy Office Snacks"; "Lunch Break Meditation";
  "Healthy Drink Recipes"; "Weekend Fitness Goals"; "Recovery Techniques"
]%string.

Definition mental_topics : list str := map py [
  "Daily Mindfulness Practices"; "Stress Management Techniques"; "Anxiety Coping Strategies";
  "Self-Care Sunday Ideas"; "Meditation for Beginners"; "Journaling Prompts";
  "Breathing Exercises"; "Digital Detox Tips"; "Positive Affirmations";
  "Sleep Hygiene Habits"; "Gratitude Practice"; "Boundary Setting";
  "Emotional Regulation"; "Mindful Eating"; "Nature Therapy Benefits";
  "Social Connection Tips"; "Creative Expression"; "Time Management";
  "Perfectionism Recovery"; "Self-Compassion Exercises"; "Mindful Communication";
  "Workplace Wellness"; "Seasonal Affective Disorder"; "Therapy Benefits";
  "Mental Health Myths"; "Crisis Resources"; "Support System Building";
  "Mindful Movement"; "Cognitive Behavioral Techniques"; "Mental Health First Aid"
]%string.

Definition business_topics : list str := map py [
  "Morning Productivity Routines"; "Time Management Hacks"; "Networking Strategies";
  "Leadership Development"; "Team Building Activities"; "Goal Setting Frameworks";
  "Communication Skills"; "Presentation Tips"; "Email Etiquette";
  "Remote Work Best Practices"; "Meeting Efficiency"; "Delegation Techniques";
  "Conflict Resolution"; "Innovation Strategies"; "Customer Service Excellence";
  "Brand Building Tips"; "Social Media Marketing"; "Content Creation Ideas";
  "Financial Planning"; "Investment Basics"; "Entrepreneurship Mindset";
  "Work-Life Balance"; "Professional Development"; "Industry Trends";
  "Negotiation Skills"; "Project Management"; "Digital Marketing";
  "Sales Techniques"; "Client Relationship Management"; "Strategic Planning"
]%string.

Definition technology_topics : list str := map py [
  "AI Tools for Productivity"; "Cybersecurity Best Practices"; "Cloud Computing Benefits";
  "Mobile App Development"; "Web Design Trends"; "Data Privacy Tips";
  "Social Media Security"; "Digital Minimalism"; "Tech for Seniors";
  "Automation Tools"; "Programming Languages"; "Tech Career Paths";
  "Gadget Reviews"; "Software Recommendations"; "Tech News Updates";
  "Digital Wellness"; "Online Learning Platforms"; "Tech Troubleshooting";
  "Future Tech Predictions"; "Startup Tech Stack"; "Open Source Tools";
  "Tech Accessibility"; "Green Technology"; "Blockchain Basics";
  "IoT Applications"; "Virtual Reality Uses"; "Machine Learning Intro";
  "Tech Ethics"; "Digital Transformation"; "Tech Community Building"
]%string.

(** The [themes] dict, in insertion order. *)
Definition themes : list (str * list str) := [
  (py "Fitness", fitness_topics);
  (py "Mental", mental_topics);
  (py "Business", business_topics);
  (py "Technology", technology_topics)
].

Definition base_topics : list str := map py [
  "Getting Started Guide"; "Common Mistakes to Avoid"; "Expert Tips";
  "Best Practices"; "Tools and Resources"; "Success Stories";
  "Troubleshooting Guide"; "Advanced Techniques"; "Industry Insights";
  "Trends and Updates"; "Community Spotlight"; "Q&A Session";
  "Behind the Scenes"; "Case Study"; "Tutorial Tuesday";
  "Myth Busting"; "Quick Tips"; "Deep Dive Analysis";
  "Beginner's Guide"; "Pro Tips"; "Weekly Roundup";
  "How-To Guide"; "Comparison Review"; "Future Predictions";
  "Personal Experience"; "Lessons Learned"; "Resource Recommendations";
  "Community Discussion"; "Expert Interview"; "Reflection Friday"
]%string.

(** [d[key]] of an insertion-ordered dict with string keys. *)
Fixpoint lookup {V} (key : str) (d : list (str * V)) : option V :=
  match d with
  | [] => None
  | (k, v) :: d' => if str_eqb key k then Some v else lookup key d'
  end.

(** The loop [while len(topics) < num_days: topics.extend(pool[:remaining])];
    [fuel] bounds the number of iterations. *)
Fixpoint extend_loop (fuel : nat) (pool topics : list str) (num_days : Z)
  : outcome (list str) :=
  if (Z.of_nat (length topics) <? num_days)%Z then
    match fuel with
    | O => OutOfFuel
    | S fuel' =>
        let remaining := (num_days - Z.of_nat (length topics))%Z in
        extend_loop fuel' pool (topics ++ slice_to remaining pool) num_days
    end
  else Returns topics.

Section Nodes.
Context {U : Unicode}.

(** Lines 66-74: the first key of [themes] whose lower-cased name occurs
    in the lower-cased theme. *)
Definition theme_key (theme : str) : option str :=
  let theme_lower := lower theme in
  find (fun key => contains (lower key) theme_lower) (map fst themes).

(** The generic topics of lines 98-101, for [i] in [range(num_days)]. *)
Fixpoint generic_topics (theme : str) (indices : list nat)
  : outcome (list str) :=
  match indices with
  | [] => Returns []
  | i :: rest =>
      match nth_error base_topics (i mod length base_topics) with
      | None => Raises IndexError
      | Some base_topic =>
          match generic_topics theme rest with
          | Returns l => Returns ((theme ++ py ": " ++ base_topic) :: l)
          | other => other
          end
      end
  end.

(** [generate_topic_ideas(theme, num_days)], its loop run with a budget
    of [fuel] iterations. *)
Definition generate_topic_ideas_in (fuel : nat) (theme : str) (num_days : Z)
  : outcome (list str) :=
  let known :=
    match theme_key theme with
    | Some key =>
        match key, lookup key themes with
        | _ :: _, Some pool => Some pool
        | _, _ => None
        end
    | None => None
    end in
  match known with
  | Some pool =>
      match extend_loop fuel pool (slice_to num_days pool) num_days with
      | Returns l => Returns (slice_to num_days l)
      | other => other
      end
  | None => generic_topics theme (seq 0 (Z.to_nat num_days))
  end.

(** Every iteration of the loop adds a topic, so [num_days] iterations
    are a budget the loop cannot exhaust ([generate_topic_ideas_total] and
    [generate_topic_ideas_budget] below). *)
Definition generate_topic_ideas (theme : str) (num_days : Z)
  : outcome (list str) :=
  generate_topic_ideas_in (Z.to_nat num_days) theme num_days.

Definition day_planner_node (state : ContentState) : M ContentState :=
  let theme := brand_theme state in
  let num_days := days state in
  l <- lift (generate_topic_ideas theme num_days) ;;
  ret (mkState (brand_theme state) (days state) l (content_plan state)).

End Nodes.

Definition theme_hashtags : list (str * list str) := [
  (py "fitness", map py ["FitnessMotivation"; "HealthyLifestyle"; "WorkoutTips";
                         "FitLife"; "HealthyHabits"; "WellnessJourney"]%string);
  (py "mental", map py ["MentalHealthMatters"; "SelfCare"; "Mindfulness";
                        "WellnessWednesday"; "MentalWellness"; "SelfLove"]%string);
  (py "business", map py ["BusinessTips"; "Entrepreneurship"; "Leadership";
                          "ProductivityHacks"; "BusinessGrowth"; "Success"]%string);
  (py "technology", map py ["TechTips"; "Innovation"; "DigitalLife";
                            "TechTrends"; "FutureTech"; "TechCommunity"]%string)
].

Definition general_hashtags : list str := map py [
  "Motivation"; "Tips"; "Growth"; "Success"; "Community"; "Inspiration";
  "Goals"; "Progress"
]%string.

(** The test [tag and len(tag) > 2] of the final comprehension. *)
Definition keeps (tag : str) : bool :=
  match tag with
  | [] => false
  | _ => 2 <? length tag
  end.

Section Synthesizers.
Context {U : Unicode}.

(** The twelve f-strings of [generate_caption], in source order. *)
Definition templates (topic theme : str) : list str :=
  let theme_lower := lower theme in
  [ [0x1f4a1] ++ py " " ++ topic ++ py ": Your " ++ theme_lower ++ py " game-changer! Ready to level up? Let's dive in! " ++ [0x1f680];
    [0x1f31f] ++ py " Today's spotlight: " ++ topic ++ py ". Small steps, big results in your " ++ theme_lower ++ py " journey! " ++ [0x2728];
    [0x1f525] ++ py " " ++ topic ++ py " - the secret sauce to crushing your " ++ theme_lower ++ py " goals! Who's ready to try this? " ++ [0x1f4aa];
    [0x2728] ++ py " Transform your routine with " ++ topic ++ py "! Your future self will thank you " ++ [0x1f64f] ++ py " #" ++ remove_spaces theme;
    [0x1f3af] ++ py " Focus Friday: " ++ topic ++ py ". Because consistency in " ++ theme_lower ++ py " creates magic! " ++ [0x2728];
    [0x1f4aa] ++ py " " ++ topic ++ py " isn't just a tip - it's your pathway to " ++ theme_lower ++ py " success! Let's go! " ++ [0x1f680];
    [0x1f331] ++ py " Growing stronger every day with " ++ topic ++ py ". Your " ++ theme_lower ++ py " journey matters! " ++ [0x1f49a];
    [0x26a1] ++ py " Power up your " ++ theme_lower ++ py " with " ++ topic ++ py "! Simple changes, powerful results " ++ [0x1f525];
    [0x1f389] ++ py " Celebrating progress with " ++ topic ++ py "! Every step counts in your " ++ theme_lower ++ py " story " ++ [0x1f4c8];
    [0x1f9e0] ++ py " Smart strategy: " ++ topic ++ py ". Work smarter, not harder in your " ++ theme_lower ++ py " journey! " ++ [0x1f4a1];
    [0x1f308] ++ py " Brighten your day with " ++ topic ++ py "! Making " ++ theme_lower ++ py " fun and sustainable " ++ [0x1f60a];
    [0x2b50] ++ py " Pro tip: " ++ topic ++ py " is your secret weapon for " ++ theme_lower ++ py " success! Ready to shine? " ++ [0x2728]
  ]%N.

Definition generate_caption (topic theme : str) : M str :=
  caption <- choice (templates topic theme) ;;
  ret caption.

(** Lines 150-158: the theme token, then the topic token when it is at
    most 20 characters long. *)
Definition base_hashtags (topic theme : str) : list str :=
  let hashtags := [remove_spaces theme] in
  let topic_clean :=
    concat (map capitalize (split (hyphens_to_spaces topic))) in
  if length topic_clean <=? 20 then hashtags ++ [topic_clean] else hashtags.

(** Lines 160-165: two tokens of the first category whose key occurs in
    the lower-cased theme. *)
Definition theme_specific (theme : str) : M (list str) :=
  let theme_lower := lower theme in
  match find (fun kv => contains (fst kv) theme_lower) theme_hashtags with
  | Some (_, theme_tags) => sample theme_tags (Nat.min 2 (length theme_tags))
  | None => ret []
  end.

(** Lines 170-174. *)
Definition format_hashtags (hashtags : list str) : str :=
  let unique_hashtags :=
    fromkeys (map (fun tag => hash :: tag) (filter keeps hashtags)) in
  join (py " ") (slice_to 5 unique_hashtags).

Definition generate_hashtags (topic theme : str) : M str :=
  let hashtags := base_hashtags topic theme in
  specific <- theme_specific theme ;;
  let hashtags := hashtags ++ specific in
  general <- sample general_hashtags 2 ;;
  let hashtags := hashtags ++ general in
  ret (format_hashtags hashtags).

(** The loop [for i, topic in enumerate(topics, 1)] that both pipelines
    run, with the caption and hashtag operations of the backend in use;
    [plan] is [content_plan] so far. *)
Fixpoint plan_loop (caption_for hashtags_for : str -> str -> M str)
    (theme : str) (plan : list ContentEntry) (i : Z) (todo : list str)
  : M (list ContentEntry) :=
  match todo with
  | [] => ret plan
  | topic :: rest =>
      caption <- caption_for topic theme ;;
      hashtags <- hashtags_for topic theme ;;
      plan_loop caption_for hashtags_for theme
        (plan ++ [mkEntry i topic caption hashtags]) (i + 1)%Z rest
  end.

Definition content_generator_node (state : ContentState) : M ContentState :=
  let theme := brand_theme state in
  plan <- plan_loop generate_caption generate_hashtags theme [] 1%Z
            (topics state) ;;
  ret (mkState (brand_theme state) (days state) (topics state) plan).

Definition formatter_node (state : ContentState) : M ContentState :=
  ret state.

Definition save_node (state : ContentState) : M ContentState :=
  ret state.

(* ================================================================== *)
(** ** content_creator/workflow.py *)
(* ================================================================== *)

(** [ContentCreatorWorkflow.run]: the compiled graph visits
    [day_planner], [content_generator], [formatter] and [save] in this
    order, each node's result merged into the state. *)
Definition run (theme : str) (num_days : Z) : M ContentState :=
  let initial_state := mkState theme num_days [] [] in
  s1 <- day_planner_node initial_state ;;
  s2 <- content_generator_node s1 ;;
  s3 <- formatter_node s2 ;;
  save_node s3.

(** [generate_content_plan]: the result of the run, and the rows handed
    to [save_to_csv] when the plan is not empty. *)
Definition generate_content_plan (theme : str) (num_days : Z)
  : M (ContentState * option (list ContentEntry)) :=
  result <- run theme num_days ;;
  match content_plan result with
  | [] => ret (result, None)
  | rows => ret (result, Some rows)
  end.

(* ================================================================== *)
(** ** llm_integration.py *)
(* ================================================================== *)

(** An [LLMContentGenerator]: [use_llm] is set when a model file was
    given, exists and loaded. *)
Record LLMContentGenerator := mkGenerator { use_llm : bool }.

Definition fallback_topics (theme : str) (num_days : Z) : M (list str) :=
  lift (generate_topic_ideas theme num_days).

Definition fallback_caption (topic theme : str) : M str :=
  generate_caption topic theme.

Definition fallback_hashtags (topic theme : str) : M str :=
  generate_hashtags topic theme.

(** Lines 80-84: the stripped strings of the decoded items that are
    strings with something left after stripping. *)
Fixpoint clean (items : list json) : list str :=
  match items with
  | [] => []
  | JString s :: rest =>
      if 0 <? length (strip s) then strip s :: clean rest else clean rest
  | JOther :: rest => clean rest
  end.

Definition generate_topics_with_llm (self : LLMContentGenerator)
    (theme : str) (num_days : Z) : M (list str) :=
  if negb (use_llm self) then fallback_topics theme num_days
  else
    reply <- request_topics ;;
    match reply with
    | TopicsDecoded items =>
        let clean_topics := clean (slice_to num_days items) in
        if (num_days / 2 <=? Z.of_nat (length clean_topics))%Z
        then ret (slice_to num_days clean_topics)
        else fallback_topics theme num_days
    | TopicsNoArray => fallback_topics theme num_days
    | TopicsRaised => fallback_topics theme num_days
    end.

(** Line 126: the words of the caption that do not start with [#],
    joined by single spaces. *)
Definition drop_hashtags (caption : str) : str :=
  join (py " ")
       (filter (fun word => negb (startswith [hash] word)) (split caption)).

Definition generate_caption_with_llm (self : LLMContentGenerator)
    (topic theme : str) : M str :=
  if negb (use_llm self) then fallback_caption topic theme
  else
    reply <- request_text ;;
    match reply with
    | Text s =>
        let caption := strip s in
        match caption with
        | _ :: _ =>
            if 10 <? length caption then ret (drop_hashtags caption)
            else fallback_caption topic theme
        | [] => fallback_caption topic theme
        end
    | Raised => fallback_caption topic theme
    end.

(** [re.findall(r'#\w+', s)]: [cur] is the run of word characters read
    since the last [#], reversed, when a [#] is open. *)
Definition emit (cur : option str) : list str :=
  match cur with
  | Some (c :: acc) => [hash :: rev (c :: acc)]
  | _ => []
  end.

Fixpoint findall_hashtags (cur : option str) (s : str) : list str :=
  match s with
  | [] => emit cur
  | c :: s' =>
      let restart := if N.eqb c hash then Some [] else None in
      match cur with
      | Some acc =>
          if isword c then findall_hashtags (Some (c :: acc)) s'
          else emit cur ++ findall_hashtags restart s'
      | None => findall_hashtags restart s'
      end
  end.

Definition generate_hashtags_with_llm (self : LLMContentGenerator)
    (topic theme : str) : M str :=
  if negb (use_llm self) then fallback_hashtags topic theme
  else
    reply <- request_text ;;
    match reply with
    | Text s =>
        let hashtags := strip s in
        match hashtags with
        | _ :: _ =>
            let hashtag_matches := findall_hashtags None hashtags in
            if 3 <=? length hashtag_matches
            then ret (join (py " ") (slice_to 5 hashtag_matches))
            else fallback_hashtags topic theme
        | [] => fallback_hashtags topic theme
        end
    | Raised => fallback_hashtags topic theme
    end.

(* ================================================================== *)
(** ** enhanced_workflow.py *)
(* ================================================================== *)

(** [EnhancedContentCreatorWorkflow]: [llm_generator] is [None] unless
    the workflow was built with [use_llm=True]. *)
Record EnhancedContentCreatorWorkflow := mkEnhanced {
  llm_generator : option LLMContentGenerator;
  self_brand_theme : str;
  self_days : Z
}.

Definition generate_with_llm (generator : LLMContentGenerator)
    (self : EnhancedContentCreatorWorkflow) : M ContentState :=
  l <- generate_topics_with_llm generator (self_brand_theme self)
         (self_days self) ;;
  plan <- plan_loop (generate_caption_with_llm generator)
            (generate_hashtags_with_llm generator)
            (self_brand_theme self) [] 1%Z l ;;
  ret (mkState (self_brand_theme self) (self_days self) l plan).

Definition generate_enhanced_content_plan
    (self : EnhancedContentCreatorWorkflow) : M ContentState :=
  match llm_generator self with
  | Some generator =>
      if use_llm generator then generate_with_llm generator self
      else run (self_brand_theme self) (self_days self)
  | None => run (self_brand_theme self) (self_days self)
  end.

End Synthesizers.

(* ================================================================== *)
(** ** Construction of the backends and the entry points *)
(* ================================================================== *)

(** What the constructors observe of the machine they run on: whether a
    path names an existing file ([os.path.exists]), whether the model
    at a path loads ([Llama(...)] returns rather than raises), and what
    [download_sample_model()] returns (the path of the sample model
    when it is there or could be fetched). *)
Record host := mkHost {
  path_exists : str -> bool;
  model_loads : str -> bool;
  sample_model : option str
}.

(** [LLMContentGenerator.__init__(model_path)] *)
Definition LLMContentGenerator_init (h : host) (model_path : option str)
  : LLMContentGenerator :=
  match model_path with
  | Some (c :: path) =>
      if path_exists h (c :: path)
      then if model_loads h (c :: path) then mkGenerator true
           else mkGenerator false
      else mkGenerator false
  | _ => mkGenerator false
  end.

(** [create_llm_generator(model_path, auto_download)] *)
Definition create_llm_generator (h : host) (model_path : option str)
    (auto_download : bool) : LLMContentGenerator :=
  let model_path :=
    match model_path with
    | Some (_ :: _) => model_path
    | _ => if auto_download then sample_model h else model_path
    end in
  LLMContentGenerator_init h model_path.

(** [EnhancedContentCreatorWorkflow.__init__(brand_theme, days,
    model_path, use_llm)] *)
Definition EnhancedContentCreatorWorkflow_init (h : host) (brand_theme : str)
    (days : Z) (model_path : option str) (use_llm : bool)
  : EnhancedContentCreatorWorkflow :=
  mkEnhanced
    (if use_llm then Some (create_llm_generator h model_path false) else None)
    brand_theme days.

Section EntryPoints.
Context {U : Unicode}.

(** The module-level function [generate_enhanced_content_plan] of
    enhanced_workflow.py: the result of the workflow's method, and the
    rows handed to [save_to_csv] when the plan is not empty. *)
Definition generate_enhanced_content_plan_function (h : host)
    (brand_theme : str) (days : Z) (model_path : option str) (use_llm : bool)
  : M (ContentState * option (list ContentEntry)) :=
  let workflow :=
    EnhancedContentCreatorWorkflow_init h brand_theme days model_path use_llm in
  result <- generate_enhanced_content_plan workflow ;;
  match content_plan result with
  | [] => ret (result, None)
  | rows => ret (result, Some rows)
  end.

(** chat_ui.py, [generate_and_save]: the theme as it enters the name of
    the downloaded file.  [re.sub(r'[^\w\s-]', '', theme.strip())]
    keeps word characters, whitespace and hyphens; [re.sub(r'[\s\n\r\t]+',
    '_', ...)] turns each run of whitespace into one underscore; then
    [.lower()[:50]]. *)
Definition underscore : char := 95%N.

Definition remove_special (s : str) : str :=
  filter (fun c => isword c || isspace c || N.eqb c hyphen) s.

Fixpoint squeeze_whitespace (in_run : bool) (s : str) : str :=
  match s with
  | [] => []
  | c :: s' =>
      if isspace c
      then if in_run then squeeze_whitespace true s'
           else underscore :: squeeze_whitespace true s'
      else c :: squeeze_whitespace false s'
  end.

Definition sanitized_theme (theme : str) : str :=
  slice_to 50 (lower (squeeze_whitespace false (remove_special (strip theme)))).

End EntryPoints.

(* ================================================================== *)
(** ** Evaluation on ASCII text *)
(* ================================================================== *)

(** The tables restricted to ASCII: letters are mapped, every other code
    point is left alone, and only ASCII letters, digits and [_] are
    word characters.  They agree with the interpreter on ASCII text and
    serve to evaluate the pipeline on concrete inputs. *)
#[refine] Instance ascii_tables : Unicode := {|
  lower := map ascii_lower;
  capitalize := ascii_capitalize;
  isword := ascii_isword
|}.
Proof.
  - reflexivity.
  - reflexivity.
  - assert (Hup : forall c, c <> space -> ascii_upper c <> space).
    { intros c. unfold ascii_upper, space.
      destruct ((97 <=? c) && (c <=? 122))%N eqn:E; [|easy].
      apply andb_prop in E as [E1 E2]. apply N.leb_le in E1. lia. }
    assert (Hlo : forall c, c <> space -> ascii_lower c <> space).
    { intros c. unfold ascii_lower, space.
      destruct ((65 <=? c) && (c <=? 90))%N eqn:E; [|easy].
      apply andb_prop in E as [E1 E2]. apply N.leb_le in E1. lia. }
    intros [|c s] H; [easy|]. simpl. intros [E|E].
    + apply (Hup c); [|exact E]. intro; apply H; now left.
    + apply in_map_iff in E as (x & E & Hx).
      apply (Hlo x); [|exact E]. intro; subst; apply H; now right.
  - reflexivity.
Defined.

(** A world for evaluation: the tape [draws] repeated for ever, and a
    service that answers every request the same way. *)
Definition world_of (draws : list nat) (t : topics_reply) (c : completion)
  : world :=
  mkWorld (fun i => nth (i mod length draws) draws 0) 0 (fun _ => t)
          (fun _ => c) 0.

(* ================================================================== *)
(** ** Vocabulary of the statements *)
(* ================================================================== *)

(** [needle] occurs in [hay] as a contiguous substring. *)
Definition occurs (needle hay : str) : Prop :=
  exists u v, hay = u ++ needle ++ v.

(** The names of the categories, in the order the classifier tries them. *)
Definition category_names : list str :=
  [py "Fitness"; py "Mental"; py "Business"; py "Technology"].

(** [l] repeats [pool] from its start: entry [i] is [pool[i mod len(pool)]]. *)
Definition cyclic (pool l : list str) : Prop :=
  forall i, i < length l -> nth_error l i = nth_error pool (i mod length pool).

(** The tokens that [format_hashtags] joins. *)
Definition tokens_of (hashtags : list str) : list str :=
  slice_to 5 (fromkeys (map (fun tag => hash :: tag) (filter keeps hashtags))).

(** *** Checks on the constant pools *)

Fixpoint distinct (l : list str) : bool :=
  match l with
  | [] => true
  | x :: l' => negb (existsb (str_eqb x) l') && distinct l'
  end.

Definition spaceless (t : str) : bool :=
  forallb (fun c => negb (N.eqb c space)) t.

(** A pool of hashtags fit to sample from: distinct tokens, each longer
    than two characters and free of spaces. *)
Definition sound_pool (pool : list str) : bool :=
  distinct pool && forallb keeps pool && forallb spaceless pool.

(** *** Worlds and effects *)

(** The world [w] after [d] more draws and [a] more requests. *)
Definition moved (d a : nat) (w : world) : world :=
  mkWorld (entropy w) (d + drawn w) (topics_service w) (text_service w)
          (a + asked w).

(** An outcome with [a] more requests counted in its final world. *)
Definition shift {A} (a : nat) (o : outcome (A * world)) : outcome (A * world) :=
  match o with
  | Returns (x, w) => Returns (x, moved 0 a w)
  | Raises e => Raises e
  | OutOfFuel => OutOfFuel
  end.

(** [m] does not look at the count of requests. *)
Definition frame {A} (m : M A) : Prop :=
  forall a w, m (moved 0 a w) = shift a (m w).

(** When [m] returns it has made [d] draws and no request. *)
Definition costs {A} (d : nat) (m : M A) : Prop :=
  forall w x w', m w = Returns (x, w') -> w' = moved d 0 w.

(** The characters left in a sanitized ASCII theme. *)
Definition filename_char (c : char) : bool :=
  ((97 <=? c) && (c <=? 122) || (48 <=? c) && (c <=? 57) ||
   (c =? 95) || (c =? 45))%N.

Section Vocabulary.
Context {U : Unicode}.

(** The entry of [theme_hashtags] that [generate_hashtags] samples
    from, if any. *)
Definition hashtag_category (theme : str) : option (str * list str) :=
  find (fun kv => contains (fst kv) (lower theme)) theme_hashtags.

(** The topic tag of [generate_hashtags], before its length test. *)
Definition topic_tag (topic : str) : str :=
  concat (map capitalize (split (hyphens_to_spaces topic))).

(** The draws of one day of the rule-based pipeline: one for the
    caption, two for the category tags when the theme has a category,
    two for the generic tags. *)
Definition draws_per_day (theme : str) : nat :=
  match hashtag_category theme with
  | Some _ => 5
  | None => 3
  end.

End Vocabulary.

(* ================================================================== *)
(** * Properties of the string and list operations *)
(* ================================================================== *)

Lemma str_eqb_eq (a b : str) : str_eqb a b = true <-> a = b.
Proof.
  revert b; induction a as [|x a IH]; intros [|y b]; simpl; try easy.
  rewrite andb_true_iff, N.eqb_eq, IH.
  split; [intros [-> ->] | intros [= -> ->]]; easy.
Qed.

Lemma str_eqb_refl (a : str) : str_eqb a a = true.
Proof. now apply str_eqb_eq. Qed.

Lemma startswith_iff (p s : str) :
  startswith p s = true <-> exists t, s = p ++ t.
Proof.
  revert s; induction p as [|x p IH]; intros s; simpl.
  - split; [now exists s | easy].
  - destruct s as [|y s]; [split; [easy | now intros [t E]]|].
    rewrite andb_true_iff, N.eqb_eq, IH. split.
    + intros [-> [t ->]]. now exists t.
    + intros [t [= -> ->]]. split; [easy | now exists t].
Qed.

Lemma contains_iff (needle hay : str) :
  contains needle hay = true <-> occurs needle hay.
Proof.
  induction hay as [|c hay IH]; simpl; rewrite orb_true_iff, startswith_iff.
  - split.
    + intros [[t E]|]; [|easy]. now exists [], t.
    + intros (u & v & E). left. destruct u; [|easy]. now exists v.
  - rewrite IH. split.
    + intros [[t E]|(u & v & E)]; [now exists [], t|].
      exists (c :: u), v. now rewrite E.
    + intros ([|c' u] & v & E); [left; now exists v|].
      right. injection E as -> ->. now exists u, v.
Qed.

Lemma contains_here (x rest : str) : contains x (x ++ rest) = true.
Proof. apply contains_iff. now exists [], rest. Qed.

Lemma contains_end (x : str) : contains x x = true.
Proof. apply contains_iff. exists [], []. now rewrite app_nil_r. Qed.

Lemma contains_later (x a b : str) :
  contains x b = true -> contains x (a ++ b) = true.
Proof.
  rewrite !contains_iff. intros (u & v & ->).
  exists (a ++ u), v. now rewrite app_assoc.
Qed.

Lemma slice_to_nonneg {A} (n : Z) (l : list A) :
  (0 <= n)%Z -> slice_to n l = firstn (Z.to_nat n) l.
Proof.
  intros H. unfold slice_to.
  destruct (Z.ltb_spec n 0); [lia | reflexivity].
Qed.

Lemma slice_to_length_le {A} (n : Z) (l : list A) :
  (0 <= n)%Z -> (Z.of_nat (length (slice_to n l)) <= n)%Z.
Proof.
  intros H. rewrite slice_to_nonneg, length_firstn by easy. lia.
Qed.

Lemma slice_to_all {A} (n : Z) (l : list A) :
  (Z.of_nat (length l) <= n)%Z -> slice_to n l = l.
Proof.
  intros H. rewrite slice_to_nonneg by lia. apply firstn_all2. lia.
Qed.

(** *** The topic loop *)

Lemma cyclic_firstn (pool : list str) (k : nat) : cyclic pool (firstn k pool).
Proof.
  intros i Hi. rewrite length_firstn in Hi.
  rewrite nth_error_firstn.
  destruct (Nat.ltb_spec i k); [|lia].
  rewrite Nat.mod_small by lia. reflexivity.
Qed.

Lemma cyclic_extend (pool l : list str) (r : nat) :
  pool <> [] -> cyclic pool l -> length l mod length pool = 0 ->
  cyclic pool (l ++ firstn r pool).
Proof.
  intros Hp Hl Hm i Hi.
  rewrite length_app, length_firstn in Hi.
  destruct (Nat.lt_ge_cases i (length l)) as [Lt|Ge].
  - rewrite nth_error_app1 by easy. now apply Hl.
  - rewrite nth_error_app2 by easy.
    rewrite nth_error_firstn.
    destruct (Nat.ltb_spec (i - length l) r); [|lia].
    apply Nat.Div0.div_exact in Hm.
    replace (i mod length pool) with (i - length l); [reflexivity|].
    replace i with ((i - length l) + (length l / length pool) * length pool)
      at 2 by lia.
    rewrite Nat.Div0.mod_add, Nat.mod_small by lia. reflexivity.
Qed.

(** With a budget of at least [num_days - len(topics)] iterations the
    loop returns, and what it returns repeats the pool up to [num_days]
    entries. *)
Lemma extend_loop_spec (fuel : nat) :
  forall (pool l : list str) (num_days : Z),
    pool <> [] -> cyclic pool l ->
    ((Z.of_nat (length l) < num_days)%Z -> length l mod length pool = 0) ->
    Z.to_nat (num_days - Z.of_nat (length l)) <= fuel ->
    exists l', extend_loop fuel pool l num_days = Returns l' /\
               cyclic pool l' /\
               Z.of_nat (length l') = Z.max num_days (Z.of_nat (length l)).
Proof.
  induction fuel as [|fuel IH]; intros pool l n Hp Hc Hm Hf; simpl;
    destruct (Z.ltb_spec (Z.of_nat (length l)) n) as [Lt|Ge];
    try (exists l; repeat split; [easy | lia]); [lia|].
  assert (Hpos : 0 < length pool) by (destruct pool; [easy | simpl; lia]).
  rewrite slice_to_nonneg by lia.
  set (r := Z.to_nat (n - Z.of_nat (length l))).
  assert (Hlen : length (l ++ firstn r pool) = length l + Nat.min r (length pool))
    by now rewrite length_app, length_firstn.
  destruct (IH pool (l ++ firstn r pool) n) as (l' & E & Hc' & Hl'); try easy.
  - apply cyclic_extend; auto.
  - rewrite Hlen. intros Lt'.
    replace (Nat.min r (length pool)) with (1 * length pool) by lia.
    rewrite Nat.Div0.mod_add. auto.
  - rewrite Hlen. lia.
  - exists l'. repeat split; try easy. rewrite Hl', Hlen. lia.
Qed.

(** More budget does not change what the loop returns. *)
Lemma extend_loop_budget (fuel fuel' : nat) :
  forall (pool l l' : list str) (num_days : Z),
    extend_loop fuel pool l num_days = Returns l' -> fuel <= fuel' ->
    extend_loop fuel' pool l num_days = Returns l'.
Proof.
  revert fuel'; induction fuel as [|fuel IH]; intros fuel' pool l l' n;
    simpl; destruct (Z.ltb_spec (Z.of_nat (length l)) n) as [Lt|Ge];
    try easy; intros E Hf.
  - destruct fuel'; simpl; destruct (Z.ltb_spec (Z.of_nat (length l)) n);
      try lia; easy.
  - destruct fuel' as [|fuel']; [lia|]. simpl.
    destruct (Z.ltb_spec (Z.of_nat (length l)) n); [|lia].
    apply IH; [easy | lia].
  - destruct fuel'; simpl; destruct (Z.ltb_spec (Z.of_nat (length l)) n);
      try lia; easy.
Qed.

(* ================================================================== *)
(** * Properties of the topic sequencer *)
(* ================================================================== *)

Lemma themes_keys : map fst themes = category_names.
Proof. reflexivity. Qed.

Lemma themes_pools (key : str) :
  In key (map fst themes) ->
  key <> [] /\
  exists pool, lookup key themes = Some pool /\ length pool = 30 /\ pool <> [].
Proof.
  intros H. simpl in H.
  destruct H as [<-|[<-|[<-|[<-|[]]]]]; (split; [easy|]).
  - exists fitness_topics. now vm_compute.
  - exists mental_topics. now vm_compute.
  - exists business_topics. now vm_compute.
  - exists technology_topics. now vm_compute.
Qed.

Lemma base_topics_length : length base_topics = 30.
Proof. reflexivity. Qed.

Section TopicFacts.
Context {U : Unicode}.

Lemma theme_key_in (theme key : str) :
  theme_key theme = Some key -> In key (map fst themes).
Proof. intros H. now apply find_some in H. Qed.

Lemma generic_topics_spec (theme : str) (indices : list nat) :
  exists l, generic_topics theme indices = Returns l /\
            length l = length indices /\
            forall k i, nth_error indices k = Some i ->
                        exists base_topic,
                          nth_error base_topics (i mod 30) = Some base_topic /\
                          nth_error l k = Some (theme ++ py ": " ++ base_topic).
Proof.
  induction indices as [|i rest (l & E & Hl & Hn)].
  - exists []. repeat split. now intros [|k].
  - cbn [generic_topics]. rewrite base_topics_length.
    destruct (nth_error base_topics (i mod 30)) as [b|] eqn:Eb.
    + rewrite E. exists ((theme ++ py ": " ++ b) :: l).
      repeat split; [simpl; now rewrite Hl|].
      intros [|k] j; cbn [nth_error].
      * intros [= <-]. now exists b.
      * apply Hn.
    + apply nth_error_None in Eb. rewrite base_topics_length in Eb.
      pose proof (Nat.mod_upper_bound i 30). lia.
Qed.

(** A theme of a known category gets its pool, repeated from the start
    up to [num_days] entries; the budget of the loop is never used up. *)
Lemma known_topics (theme key : str) (num_days : Z) :
  theme_key theme = Some key -> (0 <= num_days)%Z ->
  exists pool l,
    lookup key themes = Some pool /\ length pool = 30 /\
    generate_topic_ideas theme num_days = Returns l /\
    Z.of_nat (length l) = num_days /\ cyclic pool l.
Proof.
  intros Hk Hn.
  destruct (themes_pools _ (theme_key_in _ _ Hk)) as (Hne & pool & Hp & H30 & Hpne).
  exists pool.
  destruct key as [|c key]; [easy|].
  unfold generate_topic_ideas, generate_topic_ideas_in.
  rewrite Hk. cbn beta iota. rewrite Hp.
  rewrite slice_to_nonneg by easy.
  destruct (extend_loop_spec (Z.to_nat num_days) pool
              (firstn (Z.to_nat num_days) pool) num_days)
    as (l & E & Hc & Hl); try easy.
  - apply cyclic_firstn.
  - rewrite length_firstn. intros Lt.
    replace (Nat.min (Z.to_nat num_days) (length pool)) with (length pool) by lia.
    apply Nat.Div0.mod_same.
  - lia.
  - rewrite E. rewrite length_firstn in Hl.
    exists l. rewrite slice_to_all by lia.
    repeat split; [easy | lia | easy].
Qed.

Lemma unknown_topics (theme : str) (num_days : Z) :
  theme_key theme = None ->
  exists l,
    generate_topic_ideas theme num_days = Returns l /\
    length l = Z.to_nat num_days /\
    forall i, i < Z.to_nat num_days ->
              exists base_topic,
                nth_error base_topics (i mod 30) = Some base_topic /\
                nth_error l i = Some (theme ++ py ": " ++ base_topic).
Proof.
  intros Hk.
  unfold generate_topic_ideas, generate_topic_ideas_in. rewrite Hk.
  destruct (generic_topics_spec theme (seq 0 (Z.to_nat num_days)))
    as (l & E & Hl & Hn).
  exists l. rewrite length_seq in Hl. repeat split; try easy.
  intros i Hi. apply Hn. rewrite nth_error_seq.
  destruct (Nat.ltb_spec i (Z.to_nat num_days)); [easy | lia].
Qed.

Lemma topics_total (theme : str) (num_days : Z) :
  (0 <= num_days)%Z ->
  exists l, generate_topic_ideas theme num_days = Returns l /\
            Z.of_nat (length l) = num_days.
Proof.
  intros Hn. destruct (theme_key theme) as [key|] eqn:Hk.
  - destruct (known_topics _ _ _ Hk Hn) as (pool & l & _ & _ & E & Hl & _).
    now exists l.
  - destruct (unknown_topics _ num_days Hk) as (l & E & Hl & _).
    exists l. split; [easy | lia].
Qed.

(** X4. The sequencer returns on every input, also on a negative day
    count: it raises nothing and its loop stays within its budget. *)
Theorem generate_topic_ideas_total (theme : str) (num_days : Z) :
  exists l, generate_topic_ideas theme num_days = Returns l.
Proof.
  destruct (Z.le_gt_cases 0 num_days) as [Hn|Hn].
  - destruct (topics_total theme num_days Hn) as (l & E & _). now exists l.
  - destruct (theme_key theme) as [key|] eqn:Hk.
    + destruct (themes_pools _ (theme_key_in _ _ Hk)) as (Hne & pool & Hp & _).
      destruct key as [|c key]; [easy|].
      unfold generate_topic_ideas, generate_topic_ideas_in.
      rewrite Hk. cbn beta iota. rewrite Hp.
      replace (Z.to_nat num_days) with 0 by lia. cbn [extend_loop].
      destruct (Z.ltb_spec (Z.of_nat (length (slice_to num_days pool))) num_days);
        [lia|]. eauto.
    + destruct (unknown_topics theme num_days Hk) as (l & E & _). now exists l.
Qed.

(** A larger budget for the loop gives the same topics. *)
Lemma generate_topic_ideas_budget (fuel : nat) (theme : str) (num_days : Z)
    (l : list str) :
  generate_topic_ideas theme num_days = Returns l ->
  Z.to_nat num_days <= fuel ->
  generate_topic_ideas_in fuel theme num_days = Returns l.
Proof.
  unfold generate_topic_ideas, generate_topic_ideas_in.
  destruct (match theme_key theme with Some _ => _ | None => _ end)
    as [pool|]; [|easy].
  destruct (extend_loop (Z.to_nat num_days) _ _ _) as [l'| |] eqn:E; try easy.
  intros [= <-] Hf. now rewrite (extend_loop_budget _ fuel _ _ _ _ E Hf).
Qed.

End TopicFacts.

(* ================================================================== *)
(** * Properties of the [random] module *)
(* ================================================================== *)

Section RandomFacts.
Context {A : Type}.
Implicit Types (l pool : list A) (x y v : A).

Lemma assign_length l : forall i v l',
  assign l i v = Some l' -> length l' = length l.
Proof.
  induction l as [|a l IH]; intros [|i] v l'; simpl; try easy.
  - now intros [= <-].
  - destruct (assign l i v) as [l''|] eqn:E; [|easy].
    intros [= <-]. simpl. f_equal. eauto.
Qed.

Lemma assign_some l : forall i v,
  i < length l -> exists l', assign l i v = Some l'.
Proof.
  induction l as [|a l IH]; intros [|i] v; simpl; try lia.
  - now exists (v :: l).
  - intros H. destruct (IH i v) as [l' ->]; [lia|]. now exists (a :: l').
Qed.

Lemma assign_same l : forall i v,
  nth_error l i = Some v -> assign l i v = Some l.
Proof.
  induction l as [|a l IH]; intros [|i] v; simpl; try easy.
  - now intros [= ->].
  - intros H. now rewrite IH.
Qed.

Lemma assign_firstn l : forall i v l' m,
  assign l i v = Some l' -> i < m ->
  assign (firstn m l) i v = Some (firstn m l').
Proof.
  induction l as [|a l IH]; intros [|i] v l' [|m]; simpl; try easy; try lia.
  - now intros [= <-].
  - destruct (assign l i v) as [l''|] eqn:E; [|easy].
    intros [= <-] H. simpl. rewrite (IH i v l'' m E); [easy | lia].
Qed.

Lemma assign_swap l : forall i v l' x,
  assign l i v = Some l' -> nth_error l i = Some x ->
  Permutation (x :: l') (v :: l).
Proof.
  induction l as [|a l IH]; intros [|i] v l' x; simpl; try easy.
  - intros [= <-] [= ->]. apply perm_swap.
  - destruct (assign l i v) as [l''|] eqn:E; [|easy].
    intros [= <-] H.
    rewrite perm_swap, (perm_swap a v). apply perm_skip. eauto.
Qed.

Lemma firstn_snoc l : forall m y,
  nth_error l m = Some y -> firstn (S m) l = firstn m l ++ [y].
Proof.
  induction l as [|a l IH]; intros [|m] y; simpl; try easy.
  - now intros [= ->].
  - intros H. f_equal. now apply IH.
Qed.

(** One round of [sample]: the item drawn and the items still to draw
    from are together the items there were to draw from. *)
Lemma sample_round pool n j x y pool' :
  j < n -> nth_error pool j = Some x -> nth_error pool (n - 1) = Some y ->
  assign pool j y = Some pool' ->
  Permutation (firstn n pool) (x :: firstn (n - 1) pool').
Proof.
  intros Hj Hx Hy Ha.
  destruct n as [|m]; [lia|].
  replace (S m - 1) with m in * by lia.
  rewrite (firstn_snoc _ _ _ Hy).
  destruct (Nat.eq_dec j m) as [->|Hne].
  - assert (x = y) as -> by congruence.
    rewrite (assign_same _ _ _ Hy) in Ha. injection Ha as <-.
    symmetry. apply Permutation_cons_append.
  - assert (Hjm : j < m) by lia.
    pose proof (assign_firstn _ _ _ _ m Ha Hjm) as Ha'.
    assert (Hx' : nth_error (firstn m pool) j = Some x).
    { rewrite nth_error_firstn. now destruct (Nat.ltb_spec j m); [|lia]. }
    rewrite <- (Permutation_cons_append (firstn m pool) y).
    symmetry. exact (assign_swap _ _ _ _ _ Ha' Hx').
Qed.

(** [k] rounds over the first [n] items of the pool return [k] of them,
    each taken once. *)
Lemma sample_rounds_spec (k : nat) : forall n pool w,
  k <= n -> n <= length pool ->
  exists l w', sample_rounds k n pool w = Returns (l, w') /\
               length l = k /\
               exists others, Permutation (firstn n pool) (l ++ others).
Proof.
  induction k as [|k IH]; intros n pool w Hk Hn.
  - exists [], w. repeat split. now exists (firstn n pool).
  - destruct n as [|m]; [lia|].
    cbn [sample_rounds]. unfold bind at 1. unfold randbelow.
    set (j := entropy w (drawn w) mod S m).
    set (w1 := mkWorld _ _ _ _ _).
    assert (Hj : j < S m) by (apply Nat.mod_upper_bound; lia).
    destruct (nth_error pool j) as [x|] eqn:Ex;
      [|apply nth_error_None in Ex; lia].
    destruct (nth_error pool (S m - 1)) as [y|] eqn:Ey;
      [|apply nth_error_None in Ey; lia].
    destruct (assign_some pool j y) as [pool' Ea]; [lia|].
    destruct (IH (S m - 1) pool' w1) as (l & w' & E & Hl & others & Hp);
      [lia | rewrite (assign_length _ _ _ _ Ea); lia |].
    unfold bind, index, store, ret.
    rewrite Ex; cbv beta iota. rewrite Ey; cbv beta iota.
    rewrite Ea; cbv beta iota. rewrite E.
    exists (x :: l), w'. repeat split; [simpl; now rewrite Hl|].
    exists others. simpl.
    rewrite (sample_round _ _ _ _ _ _ Hj Ex Ey Ea). now apply perm_skip.
Qed.

Lemma sample_spec (population : list A) (k : nat) (w : world) :
  k <= length population ->
  exists l w', sample population k w = Returns (l, w') /\
               length l = k /\
               exists others, Permutation population (l ++ others).
Proof.
  intros Hk. unfold sample.
  destruct (Nat.ltb_spec (length population) k); [lia|].
  destruct (sample_rounds_spec k (length population) population w)
    as (l & w' & E & Hl & others & Hp); try lia.
  rewrite firstn_all in Hp. exists l, w'. repeat split; try easy. now exists others.
Qed.

Lemma choice_spec (seq : list A) (w : world) :
  seq <> [] ->
  exists j x w', choice seq w = Returns (x, w') /\
                 j = entropy w (drawn w) mod length seq /\
                 nth_error seq j = Some x.
Proof.
  intros Hne. unfold choice.
  destruct (length seq) as [|n] eqn:El; [now destruct seq|].
  unfold bind, randbelow, index.
  set (j := entropy w (drawn w) mod S n).
  assert (Hj : j < S n) by (apply Nat.mod_upper_bound; lia).
  destruct (nth_error seq j) as [x|] eqn:Ex;
    [|apply nth_error_None in Ex; lia].
  now exists j, x, (mkWorld (entropy w) (S (drawn w)) (topics_service w)
                            (text_service w) (asked w)).
Qed.

End RandomFacts.

(* ================================================================== *)
(** * Properties of the hashtag synthesizer *)
(* ================================================================== *)

(** *** Splitting and joining *)

Lemma split_run_words (s : str) : forall cur word,
  (forall c, In c cur -> isspace c = false) ->
  In word (split_run cur s) ->
  word <> [] /\ forall c, In c word -> isspace c = false.
Proof.
  assert (Hflush : forall cur word,
             (forall c, In c cur -> isspace c = false) ->
             In word (flush cur) ->
             word <> [] /\ forall c, In c word -> isspace c = false).
  { intros [|a cur] word Hcur; simpl; [easy|]. intros [<-|[]]. split.
    - intros E. apply (f_equal (@length char)) in E.
      rewrite length_app in E. simpl in E. lia.
    - intros c Hc. apply Hcur. apply in_rev. exact Hc. }
  induction s as [|c s IH]; intros cur word Hcur; simpl.
  - now apply Hflush.
  - destruct (isspace c) eqn:Ec.
    + intros H. apply in_app_or in H as [H|H]; [now apply (Hflush cur)|].
      now apply (IH []).
    + apply IH. intros c' [<-|H]; [easy | now apply Hcur].
Qed.

Lemma split_words (s word : str) :
  In word (split s) -> word <> [] /\ ~ In space word.
Proof.
  intros H. apply split_run_words in H as [Hne Hw]; [|easy].
  split; [easy|]. intros Hs. now apply Hw in Hs.
Qed.

Lemma split_on_clean (c : char) (t : str) :
  ~ In c t -> split_on c t = [t].
Proof.
  induction t as [|x t IH]; simpl; [easy|]. intros H.
  destruct (N.eqb_spec x c) as [->|Hne]; [tauto|].
  rewrite IH by tauto. reflexivity.
Qed.

Lemma split_on_sep (c : char) (t rest : str) :
  ~ In c t -> split_on c (t ++ c :: rest) = t :: split_on c rest.
Proof.
  induction t as [|x t IH]; simpl; intros H.
  - now rewrite N.eqb_refl.
  - destruct (N.eqb_spec x c) as [->|Hne]; [tauto|].
    rewrite IH by tauto. reflexivity.
Qed.

(** Splitting a space-joined list of space-free tokens gives the tokens
    back. *)
Lemma split_on_join (tokens : list str) :
  tokens <> [] -> (forall t, In t tokens -> ~ In space t) ->
  split_on space (join [space] tokens) = tokens.
Proof.
  induction tokens as [|t [|t2 rest] IH]; intros Hne Hs; [easy| |].
  - simpl. apply split_on_clean. apply Hs. now left.
  - change (join [space] (t :: t2 :: rest))
      with (t ++ space :: join [space] (t2 :: rest)).
    rewrite split_on_sep by (apply Hs; now left).
    f_equal. apply IH; [easy|]. intros t' H. apply Hs. now right.
Qed.

(** *** [dict.fromkeys] *)

Lemma seen_iff (x : str) (seen : list str) :
  existsb (str_eqb x) seen = true <-> In x seen.
Proof.
  rewrite existsb_exists. split.
  - intros (y & Hy & E). apply str_eqb_eq in E. now subst.
  - intros H. exists x. split; [easy | apply str_eqb_refl].
Qed.

Lemma fromkeys_from_in (l : list str) : forall seen x,
  In x (fromkeys_from seen l) <-> In x l /\ ~ In x seen.
Proof.
  induction l as [|a l IH]; intros seen x; simpl; [tauto|].
  destruct (existsb (str_eqb a) seen) eqn:E.
  - apply seen_iff in E. rewrite IH. split; [tauto|].
    intros [[<-|H] Hn]; tauto.
  - assert (Ha : ~ In a seen) by (rewrite <- seen_iff, E; easy).
    simpl. rewrite IH. simpl. split.
    + intros [<-|[H Hn]]; tauto.
    + intros [[<-|H] Hn]; [tauto|].
      destruct (list_eq_dec N.eq_dec a x) as [->|Hne]; [tauto|]. right. tauto.
Qed.

Lemma fromkeys_from_nodup (l : list str) : forall seen,
  NoDup (fromkeys_from seen l).
Proof.
  induction l as [|a l IH]; intros seen; simpl; [constructor|].
  destruct (existsb (str_eqb a) seen); [apply IH|].
  constructor; [|apply IH].
  rewrite fromkeys_from_in. simpl. tauto.
Qed.

Lemma fromkeys_from_length (l : list str) : forall seen,
  length (fromkeys_from seen l) <= length l.
Proof.
  induction l as [|a l IH]; intros seen; simpl; [lia|].
  destruct (existsb (str_eqb a) seen); simpl.
  - specialize (IH seen). lia.
  - specialize (IH (a :: seen)). lia.
Qed.

(** When no key is dropped, the keys are left as they are. *)
Lemma fromkeys_from_full (l : list str) : forall seen,
  length (fromkeys_from seen l) = length l -> fromkeys_from seen l = l.
Proof.
  induction l as [|a l IH]; intros seen; simpl; [easy|].
  destruct (existsb (str_eqb a) seen); simpl.
  - pose proof (fromkeys_from_length l seen). lia.
  - intros H. f_equal. apply IH. lia.
Qed.

Lemma filter_full {A} (p : A -> bool) (l : list A) :
  length (filter p l) = length l -> filter p l = l.
Proof.
  induction l as [|a l IH]; simpl; [easy|].
  pose proof (filter_length_le p l) as Hle.
  destruct (p a); simpl; intros E; [f_equal; apply IH|]; lia.
Qed.

(** A key with fewer than [n] keys before it is among the first [n]
    distinct keys. *)
Lemma fromkeys_from_early (pre : list str) : forall seen x post n,
  ~ In x seen -> length pre < n ->
  In x (firstn n (fromkeys_from seen (pre ++ x :: post))).
Proof.
  induction pre as [|a pre IH]; intros seen x post n Hx Hn; simpl.
  - destruct (existsb (str_eqb x) seen) eqn:E;
      [apply seen_iff in E; tauto|].
    destruct n; [simpl in Hn; lia | now left].
  - simpl in Hn. destruct (existsb (str_eqb a) seen) eqn:E.
    + apply IH; [easy | lia].
    + destruct n as [|n]; [lia|]. simpl.
      destruct (list_eq_dec N.eq_dec a x) as [->|Hne]; [now left|].
      right. apply IH; [|lia]. simpl. tauto.
Qed.

Lemma firstn_incl {A} (n : nat) (l : list A) (x : A) :
  In x (firstn n l) -> In x l.
Proof.
  intros H. rewrite <- (firstn_skipn n l). apply in_or_app. now left.
Qed.

Lemma firstn_nodup {A} (n : nat) (l : list A) :
  NoDup l -> NoDup (firstn n l).
Proof.
  intros H. rewrite <- (firstn_skipn n l) in H.
  now apply NoDup_app_remove_r in H.
Qed.

Lemma two_members {A} (l : list A) (a b : A) :
  In a l -> In b l -> a <> b -> 2 <= length l.
Proof.
  destruct l as [|x [|y l]]; simpl; try lia; intuition congruence.
Qed.

(** *** The hashtag pools *)

Lemma distinct_nodup (l : list str) : distinct l = true -> NoDup l.
Proof.
  induction l as [|x l IH]; simpl; [constructor|].
  rewrite andb_true_iff, negb_true_iff. intros [Hx Hl].
  constructor; [|auto]. rewrite <- seen_iff, Hx. easy.
Qed.

Lemma spaceless_spec (t : str) : spaceless t = true <-> ~ In space t.
Proof.
  unfold spaceless. rewrite forallb_forall. split.
  - intros H Hs. apply H in Hs. now rewrite N.eqb_refl in Hs.
  - intros H c Hc. destruct (N.eqb_spec c space) as [->|]; [tauto | easy].
Qed.

Lemma sound_pool_spec (pool : list str) :
  sound_pool pool = true ->
  NoDup pool /\ forall t, In t pool -> keeps t = true /\ ~ In space t.
Proof.
  unfold sound_pool. rewrite !andb_true_iff, !forallb_forall.
  intros [[Hd Hk] Hs]. split; [now apply distinct_nodup|].
  intros t Ht. split; [auto | apply spaceless_spec; auto].
Qed.

Lemma general_hashtags_sound : sound_pool general_hashtags = true.
Proof. now vm_compute. Qed.

Lemma theme_hashtags_sound :
  forallb (fun kv => sound_pool (snd kv) && (length (snd kv) =? 6))
          theme_hashtags = true.
Proof. now vm_compute. Qed.

Lemma keeps_length (tag : str) : keeps tag = true <-> 2 < length tag.
Proof.
  destruct tag as [|c tag]; simpl; [split; [easy | lia]|].
  destruct (length tag) as [|[|n]]; simpl; split; try easy; lia.
Qed.

Section HashtagFacts.
Context {U : Unicode}.

Lemma remove_spaces_clean (s : str) : ~ In space (remove_spaces s).
Proof.
  unfold remove_spaces. intros H. apply filter_In in H as [_ H].
  now rewrite N.eqb_refl in H.
Qed.

Lemma base_hashtags_spec (topic theme : str) :
  length (base_hashtags topic theme) <= 2 /\
  forall t, In t (base_hashtags topic theme) -> ~ In space t.
Proof.
  unfold base_hashtags.
  set (topic_clean := concat _).
  assert (Hc : ~ In space topic_clean).
  { unfold topic_clean. intros H.
    apply in_concat in H as (word' & Hw' & Hs).
    apply in_map_iff in Hw' as (word & <- & Hw).
    apply split_words in Hw as [_ Hw].
    now apply capitalize_no_space in Hs. }
  destruct (length topic_clean <=? 20); simpl; (split; [lia|]).
  - intros t [<-|[<-|[]]]; [apply remove_spaces_clean | easy].
  - intros t [<-|[]]. apply remove_spaces_clean.
Qed.

Lemma theme_specific_spec (theme : str) (w : world) :
  exists specific w1,
    theme_specific theme w = Returns (specific, w1) /\
    length specific <= 2 /\
    forall t, In t specific -> keeps t = true /\ ~ In space t.
Proof.
  unfold theme_specific.
  destruct (find _ theme_hashtags) as [[key theme_tags]|] eqn:Ef.
  - apply find_some in Ef as [Hin _].
    pose proof theme_hashtags_sound as Hs.
    rewrite forallb_forall in Hs. apply Hs in Hin. simpl in Hin.
    apply andb_prop in Hin as [Hp Hl]. apply Nat.eqb_eq in Hl.
    apply sound_pool_spec in Hp as [_ Hp].
    rewrite Hl. change (Nat.min 2 6) with 2.
    destruct (sample_spec theme_tags 2 w) as (l & w1 & E & Hlen & others & Hperm);
      [lia|].
    exists l, w1. repeat split; [easy | lia | |].
    + apply Hp. apply (Permutation_in _ (Permutation_sym Hperm)).
      apply in_or_app. now left.
    + apply Hp. apply (Permutation_in _ (Permutation_sym Hperm)).
      apply in_or_app. now left.
  - exists [], w. repeat split; simpl; (lia || easy).
Qed.

Lemma general_sample_spec (w : world) :
  exists g1 g2 w2,
    sample general_hashtags 2 w = Returns ([g1; g2], w2) /\
    In g1 general_hashtags /\ In g2 general_hashtags /\ g1 <> g2.
Proof.
  destruct (sample_spec general_hashtags 2 w)
    as (l & w2 & E & Hlen & others & Hperm); [simpl; lia|].
  destruct l as [|g1 [|g2 [|]]]; try easy.
  exists g1, g2, w2.
  destruct (sound_pool_spec _ general_hashtags_sound) as [Hnd _].
  apply (Permutation_NoDup Hperm) in Hnd. simpl in Hnd.
  repeat split; try easy.
  - apply (Permutation_in _ (Permutation_sym Hperm)). now left.
  - apply (Permutation_in _ (Permutation_sym Hperm)). right. now left.
  - intros ->. inversion Hnd as [|? ? Hn _]. apply Hn. now left.
Qed.

(** The run of [generate_hashtags]: the category sample, then the
    generic sample, then the formatting of everything collected. *)
Lemma generate_hashtags_run (topic theme : str) (w : world) :
  exists specific w1 g1 g2 w2,
    theme_specific theme w = Returns (specific, w1) /\
    sample general_hashtags 2 w1 = Returns ([g1; g2], w2) /\
    generate_hashtags topic theme w =
      Returns (format_hashtags
                 (base_hashtags topic theme ++ specific ++ [g1; g2]), w2) /\
    length specific <= 2 /\
    (forall t, In t specific -> ~ In space t) /\
    In g1 general_hashtags /\ In g2 general_hashtags /\ g1 <> g2.
Proof.
  destruct (theme_specific_spec theme w) as (specific & w1 & E1 & Hl & Hs).
  destruct (general_sample_spec w1) as (g1 & g2 & w2 & E2 & H1 & H2 & Hne).
  exists specific, w1, g1, g2, w2. repeat split; try easy.
  - unfold generate_hashtags, bind. rewrite E1, E2. unfold ret.
    now rewrite app_assoc.
  - intros t Ht. now apply Hs.
Qed.

End HashtagFacts.

Lemma format_hashtags_tokens (hashtags : list str) :
  format_hashtags hashtags = join [space] (tokens_of hashtags).
Proof. reflexivity. Qed.

Lemma tokens_of_spec (hashtags : list str) :
  length (tokens_of hashtags) <= 5 /\
  NoDup (tokens_of hashtags) /\
  forall t, In t (tokens_of hashtags) ->
            exists body, t = hash :: body /\ 2 < length body /\
                         In body hashtags.
Proof.
  unfold tokens_of. rewrite slice_to_nonneg by lia.
  change (Z.to_nat 5) with 5. repeat split.
  - apply firstn_le_length.
  - apply firstn_nodup, fromkeys_from_nodup.
  - intros t Ht. apply firstn_incl in Ht.
    apply fromkeys_from_in in Ht as [Ht _].
    apply in_map_iff in Ht as (body & <- & Hb).
    apply filter_In in Hb as [Hb Hk].
    exists body. repeat split; [now apply keeps_length | easy].
Qed.

(** A kept tag with at most four tags before it is among the tokens. *)
Lemma tokens_of_early (pre post : list str) (tag : str) :
  length pre <= 4 -> keeps tag = true ->
  In (hash :: tag) (tokens_of (pre ++ tag :: post)).
Proof.
  intros Hpre Hk. unfold tokens_of. rewrite slice_to_nonneg by lia.
  change (Z.to_nat 5) with 5.
  rewrite filter_app. cbn [filter]. rewrite Hk, map_app. cbn [map].
  unfold fromkeys. apply fromkeys_from_early; [easy|].
  rewrite length_map.
  pose proof (filter_length_le keeps pre). lia.
Qed.

(** A kept tag is among the distinct formatted tags, before the cut. *)
Lemma kept_tag_unique (hashtags : list str) (tag : str) :
  In tag hashtags -> keeps tag = true ->
  In (hash :: tag)
     (fromkeys (map (fun tag => hash :: tag) (filter keeps hashtags))).
Proof.
  intros Hin Hk. apply fromkeys_from_in. split; [|easy].
  apply in_map. apply filter_In. now split.
Qed.

(** The last of the collected tags, when kept, is among the tokens
    exactly when the distinct formatted tags are at most five: with six
    of them nothing was filtered and nothing was a duplicate, and the
    last one is the sixth. *)
Lemma tokens_of_last (pre : list str) (tag : str) :
  length pre <= 5 -> keeps tag = true ->
  In (hash :: tag) (tokens_of (pre ++ [tag])) <->
  length (fromkeys (map (fun tag => hash :: tag)
                        (filter keeps (pre ++ [tag])))) <= 5.
Proof.
  intros Hpre Hk. unfold tokens_of. rewrite slice_to_nonneg by lia.
  change (Z.to_nat 5) with 5.
  set (raw := pre ++ [tag]).
  set (tags := map (fun tag => hash :: tag) (filter keeps raw)).
  assert (Hin : In (hash :: tag) (fromkeys tags)).
  { apply kept_tag_unique; [|easy]. apply in_or_app. right. now left. }
  split.
  - intros Hcut.
    destruct (Nat.le_gt_cases (length (fromkeys tags)) 5) as [|Hsix]; [easy|].
    exfalso.
    pose proof (fromkeys_from_length tags []) as H1.
    pose proof (filter_length_le keeps raw) as H2.
    assert (H3 : length tags = length (filter keeps raw))
      by (unfold tags; apply length_map).
    assert (H4 : length raw = length pre + 1)
      by (unfold raw; rewrite length_app; simpl; lia).
    unfold fromkeys in *.
    assert (Ef : fromkeys_from [] tags = tags)
      by (apply fromkeys_from_full; unfold str, char in *; lia).
    assert (Ek : filter keeps raw = raw)
      by (apply filter_full; unfold str, char in *; lia).
    assert (Hl : length pre = 5) by (unfold str, char in *; lia).
    pose proof (fromkeys_from_nodup tags []) as Hnd.
    rewrite Ef in Hcut, Hnd. unfold tags in Hcut, Hnd. rewrite Ek in Hcut, Hnd.
    unfold raw in Hcut, Hnd. rewrite map_app in Hcut, Hnd. cbn [map] in Hcut, Hnd.
    rewrite firstn_app, length_map, Hl, Nat.sub_diag in Hcut.
    rewrite firstn_all2 in Hcut by (rewrite length_map; lia).
    cbn [firstn] in Hcut. rewrite app_nil_r in Hcut.
    apply NoDup_remove_2 in Hnd. apply Hnd. now rewrite app_nil_r.
  - intros Hfew. now rewrite firstn_all2.
Qed.

Section HashtagClaims.
Context {U : Unicode}.

(** Everything the two hashtag claims need of one run of
    [generate_hashtags]. *)
Lemma generate_hashtags_tokens (topic theme : str) (w : world) :
  exists specific w1 g1 g2 w2 tokens,
    theme_specific theme w = Returns (specific, w1) /\
    sample general_hashtags 2 w1 = Returns ([g1; g2], w2) /\
    generate_hashtags topic theme w = Returns (join [space] tokens, w2) /\
    tokens = tokens_of (base_hashtags topic theme ++ specific ++ [g1; g2]) /\
    split_on space (join [space] tokens) = tokens /\
    g1 <> g2 /\ keeps g1 = true /\ keeps g2 = true /\
    In (hash :: g1) tokens /\ 2 <= length tokens.
Proof.
  destruct (generate_hashtags_run topic theme w)
    as (specific & w1 & g1 & g2 & w2 & E1 & E2 & E & Hl & Hs & H1 & H2 & Hne).
  destruct (sound_pool_spec _ general_hashtags_sound) as [_ Hg].
  destruct (Hg _ H1) as [Hk1 Hs1]. destruct (Hg _ H2) as [Hk2 Hs2].
  destruct (base_hashtags_spec topic theme) as [Hbl Hbs].
  set (raw := base_hashtags topic theme ++ specific ++ [g1; g2]) in *.
  destruct (tokens_of_spec raw) as (Hle & Hnd & Hbody).
  assert (Hraw : forall t, In t raw -> ~ In space t).
  { unfold raw. intros t Ht.
    apply in_app_or in Ht as [Ht|Ht]; [now apply Hbs|].
    apply in_app_or in Ht as [Ht|[<-|[<-|[]]]]; auto. }
  assert (Hfirst : In (hash :: g1) (tokens_of raw)).
  { unfold raw. rewrite app_assoc. apply tokens_of_early; [|easy].
    rewrite length_app. lia. }
  assert (Htwo : 2 <= length (tokens_of raw)).
  { unfold tokens_of. rewrite slice_to_nonneg by lia.
    change (Z.to_nat 5) with 5. rewrite length_firstn.
    enough (2 <= length (fromkeys (map (fun tag => hash :: tag)
                                       (filter keeps raw)))) by lia.
    apply (two_members _ (hash :: g1) (hash :: g2)).
    - apply kept_tag_unique; [|easy]. unfold raw.
      apply in_or_app; right; apply in_or_app; right. now left.
    - apply kept_tag_unique; [|easy]. unfold raw.
      apply in_or_app; right; apply in_or_app; right. right. now left.
    - intros [= F]. tauto. }
  exists specific, w1, g1, g2, w2, (tokens_of raw).
  repeat split; try easy.
  apply split_on_join.
  - intros F. rewrite F in Htwo. simpl in Htwo. lia.
  - intros t Ht. destruct (Hbody t Ht) as (body & -> & _ & Hb).
    intros [F|F]; [discriminate F | now apply (Hraw body)].
Qed.

(** C6. For every topic, theme and state of the random generator,
    [generate_hashtags] returns a string whose pieces between spaces are
    between 1 and 5 tokens, each a [#] followed by more than two
    characters, no token occurring twice. *)
Theorem hashtags_tokens_wellformed (topic theme : str) (w : world) :
  exists out w' tokens,
    generate_hashtags topic theme w = Returns (out, w') /\
    split_on space out = tokens /\
    1 <= length tokens <= 5 /\
    NoDup tokens /\
    forall t, In t tokens ->
              startswith [hash] t = true /\
              exists body, t = hash :: body /\ 2 < length body.
Proof.
  destruct (generate_hashtags_tokens topic theme w)
    as (specific & w1 & g1 & g2 & w2 & tokens & _ & _ & E & -> & Hsplit &
        _ & _ & _ & _ & Htwo).
  set (raw := base_hashtags topic theme ++ specific ++ [g1; g2]) in *.
  destruct (tokens_of_spec raw) as (Hle & Hnd & Hbody).
  exists (join [space] (tokens_of raw)), w2, (tokens_of raw).
  split; [easy|]. split; [easy|]. split; [lia|]. split; [easy|].
  intros t Ht. destruct (Hbody t Ht) as (body & -> & Hlen & _).
  split; [reflexivity | now exists body].
Qed.

(** C10, as the code has it.  The output has at least two tokens.  The
    two generic tokens sampled are distinct and longer than two
    characters; both pass the length filter and the removal of
    duplicates.  The first of them is always among the tokens of the
    output (at most four tags precede it); the second is among them
    exactly when the distinct tags left by the filter are at most five,
    the cut to five tokens removing it otherwise. *)
Theorem hashtags_keep_generic_tokens (topic theme : str) (w : world) :
  exists specific w1 g1 g2 w2 out,
    theme_specific theme w = Returns (specific, w1) /\
    sample general_hashtags 2 w1 = Returns ([g1; g2], w2) /\
    generate_hashtags topic theme w = Returns (out, w2) /\
    g1 <> g2 /\ 2 < length g1 /\ 2 < length g2 /\
    (forall g, g = g1 \/ g = g2 ->
       In (hash :: g)
          (fromkeys (map (fun tag => hash :: tag)
                         (filter keeps (base_hashtags topic theme ++
                                        specific ++ [g1; g2]))))) /\
    In (hash :: g1) (split_on space out) /\
    2 <= length (split_on space out) /\
    (In (hash :: g2) (split_on space out) <->
     length (fromkeys (map (fun tag => hash :: tag)
                           (filter keeps (base_hashtags topic theme ++
                                          specific ++ [g1; g2])))) <= 5).
Proof.
  destruct (generate_hashtags_tokens topic theme w)
    as (specific & w1 & g1 & g2 & w2 & tokens & E1 & E2 & E & Ht & Hsplit &
        Hne & Hk1 & Hk2 & Hin & Htwo).
  destruct (theme_specific_spec theme w) as (specific' & w1' & E1' & Hl & _).
  assert (Es : specific' = specific) by congruence. subst specific'.
  destruct (base_hashtags_spec topic theme) as [Hbl _].
  exists specific, w1, g1, g2, w2, (join [space] tokens).
  rewrite Hsplit. repeat split; try easy; try now apply keeps_length.
  - intros g [->| ->]; (apply kept_tag_unique; [|easy]);
      apply in_or_app; right; apply in_or_app; right; simpl; tauto.
  - intros Hcut. subst tokens.
    replace (base_hashtags topic theme ++ specific ++ [g1; g2])
      with ((base_hashtags topic theme ++ specific ++ [g1]) ++ [g2]) in *
      by (now rewrite <- !app_assoc).
    apply tokens_of_last in Hcut; [easy | | easy].
    rewrite !length_app. simpl. lia.
  - intros Hfew. subst tokens.
    replace (base_hashtags topic theme ++ specific ++ [g1; g2])
      with ((base_hashtags topic theme ++ specific ++ [g1]) ++ [g2]) in *
      by (now rewrite <- !app_assoc).
    apply tokens_of_last; [| easy | easy].
    rewrite !length_app. simpl. lia.
Qed.

End HashtagClaims.

(** C10 as stated fails: for the theme [Fitness] and the topic [Yoga]
    the theme token, the topic token and two category tokens fill four
    of the five places, and the second generic token sampled is cut. *)
Lemma second_generic_token_cut :
  exists specific w1 g1 g2 w2 out,
    theme_specific (py "Fitness") (world_of [3; 1; 4; 1] TopicsRaised Raised)
      = Returns (specific, w1) /\
    sample general_hashtags 2 w1 = Returns ([g1; g2], w2) /\
    generate_hashtags (py "Yoga") (py "Fitness")
      (world_of [3; 1; 4; 1] TopicsRaised Raised) = Returns (out, w2) /\
    out = py "#Fitness #Yoga #FitLife #HealthyLifestyle #Community" /\
    g2 = py "Tips" /\
    ~ In (hash :: g2) (split_on space out).
Proof.
  do 6 eexists. split; [vm_compute; reflexivity|].
  split; [vm_compute; reflexivity|].
  split; [vm_compute; reflexivity|].
  split; [vm_compute; reflexivity|].
  split; [vm_compute; reflexivity|].
  intros H. apply seen_iff in H. vm_compute in H. discriminate H.
Qed.

(** The second generic token is not cut whenever four tags precede
    the pair: for the theme [business] and the topic [Yoga] the first
    generic token sampled, [Success], is also one of the two category
    tokens, and the second, [Tips], is the fifth token of the output. *)
Example second_generic_token_kept :
  exists specific w1 g1 g2 w2 out,
    theme_specific (py "business") (world_of [5; 0; 3; 1] TopicsRaised Raised)
      = Returns (specific, w1) /\
    sample general_hashtags 2 w1 = Returns ([g1; g2], w2) /\
    generate_hashtags (py "Yoga") (py "business")
      (world_of [5; 0; 3; 1] TopicsRaised Raised) = Returns (out, w2) /\
    specific = [py "Success"; py "BusinessTips"] /\
    g1 = py "Success" /\ g2 = py "Tips" /\
    out = py "#business #Yoga #Success #BusinessTips #Tips".
Proof. do 6 eexists. repeat split; vm_compute; reflexivity. Qed.

(* ================================================================== *)
(** * Properties of the caption synthesizer *)
(* ================================================================== *)

Lemma some_inj {A} (a b : A) : Some a = Some b -> a = b.
Proof. now intros [= ->]. Qed.

Ltac find_field :=
  repeat first [ apply contains_here | apply contains_end
               | apply contains_later ].

Section CaptionFacts.
Context {U : Unicode}.

(** What each of the twelve templates interpolates: the topic always;
    the lower-cased theme in all but the fourth, which has the theme
    with its spaces removed instead. *)
Lemma templates_fields (topic theme : str) (j : nat) (caption : str) :
  nth_error (templates topic theme) j = Some caption ->
  j < 12 /\ caption <> [] /\
  contains topic caption = true /\
  (j <> 3 -> contains (lower theme) caption = true) /\
  (j = 3 -> contains (remove_spaces theme) caption = true).
Proof.
  unfold templates.
  do 12 (destruct j as [|j];
         [ cbn [nth_error]; intros E; apply some_inj in E; subst caption;
           split; [lia|]; split; [discriminate|]; split; [find_field|];
           split; intros H;
           first [ now contradiction H | discriminate H | find_field ]
         | ]).
  cbn [nth_error]. now destruct j.
Qed.

Lemma templates_length (topic theme : str) :
  length (templates topic theme) = 12.
Proof. reflexivity. Qed.

Lemma generate_caption_run (topic theme : str) (w : world) :
  exists j caption w',
    generate_caption topic theme w = Returns (caption, w') /\
    j = entropy w (drawn w) mod 12 /\
    nth_error (templates topic theme) j = Some caption.
Proof.
  destruct (choice_spec (templates topic theme) w)
    as (j & caption & w' & E & Hj & Hn); [discriminate|].
  rewrite templates_length in Hj.
  exists j, caption, w'. repeat split; try easy.
  unfold generate_caption, bind. now rewrite E.
Qed.

Lemma generate_caption_total (topic theme : str) (w : world) :
  exists caption w', generate_caption topic theme w = Returns (caption, w').
Proof.
  destruct (generate_caption_run topic theme w) as (_ & caption & w' & E & _).
  eauto.
Qed.

(** C8, as the code has it.  [generate_caption] returns the template
    that the draw selects among the twelve; the caption is not empty
    and contains the topic; it contains the lower-cased theme unless
    the fourth template was drawn, which contains the theme with its
    spaces removed, in its own case. *)
Theorem caption_fields (topic theme : str) (w : world) :
  exists j caption w',
    generate_caption topic theme w = Returns (caption, w') /\
    j = entropy w (drawn w) mod 12 /\
    nth_error (templates topic theme) j = Some caption /\
    caption <> [] /\
    contains topic caption = true /\
    (j <> 3 -> contains (lower theme) caption = true) /\
    (j = 3 -> contains (remove_spaces theme) caption = true).
Proof.
  destruct (generate_caption_run topic theme w) as (j & caption & w' & E & Hj & Hn).
  destruct (templates_fields _ _ _ _ Hn) as (_ & Hne & Ht & Hl & Hr).
  now exists j, caption, w'.
Qed.


End CaptionFacts.

(** C8 as stated fails on the fourth template: with the theme [Fit Life]
    (over the ASCII tables) the caption drawn has [#FitLife] and no
    [fit life]. *)
Lemma fourth_template_lacks_lowered_theme :
  exists caption w',
    generate_caption (py "Yoga") (py "Fit Life")
      (world_of [3] TopicsRaised Raised) = Returns (caption, w') /\
    nth_error (templates (py "Yoga") (py "Fit Life")) 3 = Some caption /\
    lower (py "Fit Life") = py "fit life" /\
    contains (lower (py "Fit Life")) caption = false.
Proof.
  do 2 eexists. split; [vm_compute; reflexivity|].
  split; [vm_compute; reflexivity|].
  split; now vm_compute.
Qed.

(* ================================================================== *)
(** * Properties of the pipeline *)
(* ================================================================== *)

(** With caption and hashtag operations that always return, the loop
    adds one row per topic, numbered from [i] on, in the order of the
    topics. *)
Lemma plan_loop_spec (caption_for hashtags_for : str -> str -> M str)
    (theme : str) :
  (forall t w, exists c w', caption_for t theme w = Returns (c, w')) ->
  (forall t w, exists h w', hashtags_for t theme w = Returns (h, w')) ->
  forall todo plan i w,
  exists rows w',
    plan_loop caption_for hashtags_for theme plan i todo w
      = Returns (plan ++ rows, w') /\
    length rows = length todo /\
    forall k topic, nth_error todo k = Some topic ->
                    exists e, nth_error rows k = Some e /\
                              Day e = (i + Z.of_nat k)%Z /\ Topic e = topic.
Proof.
  intros Hc Hh. induction todo as [|t todo IH]; intros plan i w.
  - exists [], w. rewrite app_nil_r. repeat split. now intros [|k].
  - destruct (Hc t w) as (c & w1 & Ec). destruct (Hh t w1) as (h & w2 & Eh).
    destruct (IH (plan ++ [mkEntry i t c h]) (i + 1)%Z w2)
      as (rows & w' & E & Hl & Hn).
    exists (mkEntry i t c h :: rows), w'. repeat split.
    + cbn [plan_loop]. unfold bind. rewrite Ec, Eh, E.
      now rewrite <- app_assoc.
    + simpl. now rewrite Hl.
    + intros [|k] topic; cbn [nth_error].
      * intros [= <-]. eexists. repeat split. simpl. lia.
      * intros Hk. destruct (Hn k topic Hk) as (e & He & Hd & Ht).
        exists e. repeat split; [easy | lia | easy].
Qed.

Section PipelineFacts.
Context {U : Unicode}.

Lemma generate_hashtags_total (topic theme : str) (w : world) :
  exists out w', generate_hashtags topic theme w = Returns (out, w').
Proof.
  destruct (generate_hashtags_run topic theme w)
    as (? & ? & ? & ? & w2 & _ & _ & E & _).
  eauto.
Qed.

(** The generate, format and save stages after a plan stage that
    returned the topics [l]. *)
Lemma stages_after_plan (theme : str) (num_days : Z) (l : list str)
    (w : world) :
  generate_topic_ideas theme num_days = Returns l ->
  exists rows w',
    run theme num_days w = Returns (mkState theme num_days l rows, w') /\
    length rows = length l /\
    forall k topic, nth_error l k = Some topic ->
                    exists e, nth_error rows k = Some e /\
                              Day e = (1 + Z.of_nat k)%Z /\ Topic e = topic.
Proof.
  intros E.
  destruct (plan_loop_spec generate_caption generate_hashtags theme
              (fun t => generate_caption_total t theme)
              (fun t => generate_hashtags_total t theme) l [] 1%Z w)
    as (rows & w' & Ep & Hl & Hn).
  exists rows, w'. repeat split; try easy.
  unfold run, day_planner_node, content_generator_node, formatter_node,
    save_node, bind, lift, ret. cbn [brand_theme days topics content_plan].
  rewrite E. cbn [brand_theme days topics content_plan]. now rewrite Ep.
Qed.

(** C1. For every theme and every day count of at least one, the
    rule-based sequencer returns exactly that many topics, and the
    pipeline returns a content plan with exactly that many rows, row
    [i] (from 0) carrying the day [i + 1] and the topic [topics[i]]. *)
Theorem plan_has_every_day (theme : str) (num_days : Z) (w : world) :
  (1 <= num_days)%Z ->
  exists l st w',
    generate_topic_ideas theme num_days = Returns l /\
    Z.of_nat (length l) = num_days /\
    run theme num_days w = Returns (st, w') /\
    generate_content_plan theme num_days w
      = Returns ((st, Some (content_plan st)), w') /\
    topics st = l /\
    Z.of_nat (length (content_plan st)) = num_days /\
    forall i topic, nth_error l i = Some topic ->
                    exists e, nth_error (content_plan st) i = Some e /\
                              Day e = (Z.of_nat i + 1)%Z /\ Topic e = topic.
Proof.
  intros Hn.
  destruct (topics_total theme num_days) as (l & E & Hl); [lia|].
  destruct (stages_after_plan theme num_days l w E) as (rows & w' & Er & Hr & Hk).
  exists l, (mkState theme num_days l rows), w'.
  repeat split; try easy.
  - unfold generate_content_plan, bind. rewrite Er. simpl.
    destruct rows; [simpl in Hr; lia | reflexivity].
  - simpl. lia.
  - intros i topic Hi. destruct (Hk i topic Hi) as (e & He & Hd & Ht).
    exists e. repeat split; [easy | lia | easy].
Qed.

End PipelineFacts.

Lemma plan_has_every_day_witness :
  (1 <= 3)%Z /\
  exists l st w',
    generate_topic_ideas (py "Mental Health for Gen Z") 3 = Returns l /\
    Z.of_nat (length l) = 3%Z /\
    run (py "Mental Health for Gen Z") 3 (world_of [5; 2; 7] TopicsRaised Raised)
      = Returns (st, w') /\
    generate_content_plan (py "Mental Health for Gen Z") 3
      (world_of [5; 2; 7] TopicsRaised Raised)
      = Returns ((st, Some (content_plan st)), w') /\
    topics st = l /\
    Z.of_nat (length (content_plan st)) = 3%Z /\
    forall i topic, nth_error l i = Some topic ->
                    exists e, nth_error (content_plan st) i = Some e /\
                              Day e = (Z.of_nat i + 1)%Z /\ Topic e = topic.
Proof.
  split; [lia|].
  apply (plan_has_every_day (py "Mental Health for Gen Z") 3
           (world_of [5; 2; 7] TopicsRaised Raised)).
  lia.
Defined.

(* ================================================================== *)
(** * Properties of the model-backed operations *)
(* ================================================================== *)

Lemma clean_length (items : list json) : length (clean items) <= length items.
Proof.
  induction items as [|[s|] items IH]; simpl; [lia| |lia].
  destruct (0 <? length (strip s)); simpl; lia.
Qed.

(** *** Removing the hashtag words does not lengthen a caption *)

Lemma join_cons_length (sep w : str) (rest : list str) :
  length (join sep (w :: rest))
  = length w + match rest with
               | [] => 0
               | _ => length sep + length (join sep rest)
               end.
Proof.
  destruct rest as [|w2 rest]; [simpl; lia|].
  change (join sep (w :: w2 :: rest)) with (w ++ sep ++ join sep (w2 :: rest)).
  now rewrite !length_app.
Qed.

Lemma join_filter_length (p : str -> bool) (words : list str) :
  length (join [space] (filter p words)) <= length (join [space] words).
Proof.
  induction words as [|w words IH]; [easy|].
  rewrite (join_cons_length [space] w words). cbn [filter].
  destruct (p w).
  - rewrite join_cons_length.
    destruct (filter p words) as [|a kept] eqn:Ef; [lia|].
    destruct words as [|w2 words]; [discriminate Ef | lia].
  - destruct words as [|w2 words]; [simpl; lia | lia].
Qed.

Lemma split_run_join_length (s : str) : forall cur,
  length (join [space] (split_run cur s)) <= length cur + length s.
Proof.
  induction s as [|c s IH]; intros cur; cbn [split_run].
  - destruct cur as [|x cur]; [simpl; lia|].
    cbn [flush join]. rewrite length_rev. lia.
  - destruct (isspace c).
    + specialize (IH []). cbn [length] in *.
      destruct cur as [|x cur]; [cbn [flush app]; lia|].
      cbn [flush app]. rewrite join_cons_length, length_rev.
      destruct (split_run [] s); cbn [length] in *; lia.
    + specialize (IH (c :: cur)). cbn [length] in *. lia.
Qed.

Lemma drop_hashtags_length (caption : str) :
  length (drop_hashtags caption) <= length caption.
Proof.
  unfold drop_hashtags, split. change (py " ") with [space].
  etransitivity; [apply join_filter_length|].
  apply (split_run_join_length caption []).
Qed.

Section ModelBacked.
Context {U : Unicode}.

Lemma generate_caption_with_llm_total (self : LLMContentGenerator)
    (topic theme : str) (w : world) :
  exists c w', generate_caption_with_llm self topic theme w = Returns (c, w').
Proof.
  unfold generate_caption_with_llm, fallback_caption.
  destruct (use_llm self); cbn [negb]; [|apply generate_caption_total].
  unfold bind, request_text.
  destruct (text_service w (asked w)) as [|s]; [apply generate_caption_total|].
  destruct (strip s) as [|c caption]; [apply generate_caption_total|].
  destruct (10 <? length (c :: caption)); [|apply generate_caption_total].
  unfold ret. eauto.
Qed.

Lemma generate_hashtags_with_llm_total (self : LLMContentGenerator)
    (topic theme : str) (w : world) :
  exists h w', generate_hashtags_with_llm self topic theme w = Returns (h, w').
Proof.
  unfold generate_hashtags_with_llm, fallback_hashtags.
  destruct (use_llm self); cbn [negb]; [|apply generate_hashtags_total].
  unfold bind, request_text.
  destruct (text_service w (asked w)) as [|s]; [apply generate_hashtags_total|].
  destruct (strip s) as [|c hashtags]; [apply generate_hashtags_total|].
  destruct (3 <=? length (findall_hashtags None (c :: hashtags)));
    [|apply generate_hashtags_total].
  unfold ret. eauto.
Qed.

(** The topic operation of a generator whose model is loaded, by what
    the service answered: the cleaned strings when there are at least
    [num_days // 2] of them, and the whole rule-based sequence
    otherwise. *)
Lemma generate_topics_with_llm_cases (theme : str) (num_days : Z)
    (w : world) :
  (0 <= num_days)%Z ->
  exists l,
    generate_topics_with_llm (mkGenerator true) theme num_days w
      = Returns (l, advance w) /\
    match topics_service w (asked w) with
    | TopicsDecoded items =>
        let clean_topics := clean (slice_to num_days items) in
        if (num_days / 2 <=? Z.of_nat (length clean_topics))%Z
        then l = clean_topics
        else generate_topic_ideas theme num_days = Returns l
    | _ => generate_topic_ideas theme num_days = Returns l
    end.
Proof.
  intros Hn.
  destruct (topics_total theme num_days Hn) as (rule & Er & Hr).
  unfold generate_topics_with_llm, fallback_topics, bind, request_topics, lift.
  cbn [use_llm negb].
  destruct (topics_service w (asked w)) as [| |items].
  - exists rule. now rewrite Er.
  - exists rule. now rewrite Er.
  - cbv zeta.
    destruct (num_days / 2 <=? _)%Z.
    + exists (clean (slice_to num_days items)). split; [|easy].
      unfold ret. rewrite slice_to_all; [easy|].
      pose proof (clean_length (slice_to num_days items)).
      pose proof (slice_to_length_le num_days items Hn). lia.
    + exists rule. now rewrite Er.
Qed.

(** The test of line 124 as the code makes it.  With the model loaded,
    a response whose text, trimmed of surrounding whitespace, is longer
    than 10 characters is returned without its hashtag words and without
    a draw; for a shorter one, and when the service fails, the
    rule-based caption is substituted.  The test is made on the text
    that still has its hashtag words. *)
Lemma caption_acceptance (self : LLMContentGenerator)
    (topic theme : str) (w : world) :
  use_llm self = true ->
  (forall s, text_service w (asked w) = Text s -> 10 < length (strip s) ->
             generate_caption_with_llm self topic theme w
               = Returns (drop_hashtags (strip s), advance w)) /\
  (text_service w (asked w) = Raised \/
   (exists s, text_service w (asked w) = Text s /\ length (strip s) <= 10) ->
   generate_caption_with_llm self topic theme w
     = generate_caption topic theme (advance w)).
Proof.
  intros Hu. unfold generate_caption_with_llm. rewrite Hu. cbn [negb].
  unfold bind, request_text, fallback_caption. split.
  - intros s -> Hlen. destruct (strip s) as [|c caption]; [simpl in Hlen; lia|].
    destruct (Nat.ltb_spec 10 (length (c :: caption))); [easy | lia].
  - intros [-> | (s & -> & Hlen)]; [easy|].
    destruct (strip s) as [|c caption]; [easy|].
    destruct (Nat.ltb_spec 10 (length (c :: caption))); [lia | easy].
Qed.

(** X20. With the model loaded, a response whose caption, once trimmed
    and rid of its hashtag words, is longer than 10 characters is
    accepted: that caption is returned, without a draw.  A response
    whose trimmed text is 10 characters or fewer, and a failure of the
    service, get the rule-based caption.  The responses in between,
    longer than 10 characters only with their hashtag words, are the
    ones the test of line 124 lets through; nothing is said of them. *)
Theorem caption_acceptance_outside_gap (self : LLMContentGenerator)
    (topic theme : str) (w : world) :
  use_llm self = true ->
  (forall s, text_service w (asked w) = Text s ->
             10 < length (drop_hashtags (strip s)) ->
             generate_caption_with_llm self topic theme w
               = Returns (drop_hashtags (strip s), advance w)) /\
  (text_service w (asked w) = Raised \/
   (exists s, text_service w (asked w) = Text s /\ length (strip s) <= 10) ->
   generate_caption_with_llm self topic theme w
     = generate_caption topic theme (advance w)).
Proof.
  intros Hu. destruct (caption_acceptance self topic theme w Hu) as [Ha Hr].
  split; [|easy].
  intros s Es Hlen. apply Ha; [easy|].
  pose proof (drop_hashtags_length (strip s)). unfold str, char in *. lia.
Qed.

End ModelBacked.

Lemma caption_acceptance_outside_gap_witness :
  use_llm (mkGenerator true) = true /\
  generate_caption_with_llm (mkGenerator true) (py "Yoga") (py "Fitness")
    (world_of [0] TopicsRaised (Text (py "  Stretch daily #fit and smile  ")))
  = Returns (py "Stretch daily and smile",
             advance (world_of [0] TopicsRaised
                        (Text (py "  Stretch daily #fit and smile  ")))).
Proof.
  split; [reflexivity|].
  apply (proj1 (caption_acceptance_outside_gap (mkGenerator true)
                  (py "Yoga") (py "Fitness")
                  (world_of [0] TopicsRaised
                     (Text (py "  Stretch daily #fit and smile  ")))
                  eq_refl)
               (py "  Stretch daily #fit and smile  ") eq_refl).
  vm_compute. lia.
Defined.

(** C9 on the code: the response [#hello #world], made of hashtag words
    only, is 13 characters long and passes the test of line 124; line
    126 then removes both words and the empty caption is returned.
    Nothing longer than 10 characters, indeed nothing at all, is left
    after the removal, and yet no rule-based caption is substituted and
    no draw is made. *)
Lemma hashtag_only_caption_accepted :
  generate_caption_with_llm (mkGenerator true) (py "Yoga") (py "Fitness")
    (world_of [0] TopicsRaised (Text (py "#hello #world")))
  = Returns ([], advance (world_of [0] TopicsRaised (Text (py "#hello #world"))))
  /\ drop_hashtags (strip (py "#hello #world")) = []
  /\ length (drop_hashtags (strip (py "#hello #world"))) <= 10.
Proof. repeat split; vm_compute; (reflexivity || lia). Qed.

(** C3 on the code: for 5 days a decoded array with the two strings [A]
    and [B] is accepted, since [5 // 2 = 2], although 2 is less than
    [ceil(5/2) = 3]; the two topics are returned as they are. *)
Lemma two_of_five_topics_accepted :
  generate_topics_with_llm (mkGenerator true) (py "Fitness") 5
    (world_of [0] (TopicsDecoded [JString (py "A"); JString (py "B")]) Raised)
  = Returns ([py "A"; py "B"],
             advance (world_of [0]
                        (TopicsDecoded [JString (py "A"); JString (py "B")])
                        Raised))
  /\ length (clean [JString (py "A"); JString (py "B")]) = 2
  /\ (5 / 2 = 2)%Z.
Proof. repeat split; vm_compute; reflexivity. Qed.


Section BackendFacts.
Context {U : Unicode}.



End BackendFacts.



(* ================================================================== *)
(** * The classifier and the cycle of a known category *)
(* ================================================================== *)

Lemma find_first {A} (f : A -> bool) (l : list A) (x : A) :
  find f l = Some x <->
  exists earlier later,
    l = earlier ++ x :: later /\ f x = true /\
    forall y, In y earlier -> f y = false.
Proof.
  induction l as [|a l IH]; simpl.
  - split; [easy|]. now intros ([|] & ? & ? & _).
  - destruct (f a) eqn:Ea.
    + split.
      * intros [= <-]. now exists [], l.
      * intros ([|b earlier] & later & E & Hx & Hpre).
        -- now injection E as ->.
        -- injection E as -> _. rewrite Hpre in Ea; [easy | now left].
    + rewrite IH. split.
      * intros (earlier & later & -> & Hx & Hpre).
        exists (a :: earlier), later. repeat split; [easy|].
        intros y [<-|Hy]; auto.
      * intros ([|b earlier] & later & E & Hx & Hpre).
        -- injection E as -> _. congruence.
        -- injection E as -> ->. exists earlier, later.
           repeat split; [easy|]. intros y Hy. apply Hpre. now right.
Qed.

Lemma find_nothing {A} (f : A -> bool) (l : list A) :
  find f l = None <-> forall x, In x l -> f x = false.
Proof.
  split; [apply find_none|].
  induction l as [|a l IH]; simpl; [easy|]. intros H.
  rewrite (H a) by now left. apply IH. intros x Hx. apply H. now right.
Qed.

Section Classifier.
Context {U : Unicode}.

(** C7. The classifier tries the names [Fitness], [Mental], [Business],
    [Technology] in this order and answers the first whose lower-cased
    form occurs as a substring of the lower-cased theme, and [None]
    when none occurs.  It is a function of the theme alone: it reads
    and changes nothing of the world. *)
Theorem classifier_first_match (theme : str) :
  map fst themes = category_names /\
  (forall name,
     theme_key theme = Some name <->
     exists earlier later,
       category_names = earlier ++ name :: later /\
       occurs (lower name) (lower theme) /\
       forall e, In e earlier -> ~ occurs (lower e) (lower theme)) /\
  (theme_key theme = None <->
   forall name, In name category_names ->
                ~ occurs (lower name) (lower theme)).
Proof.
  split; [reflexivity|]. unfold theme_key. rewrite themes_keys. split.
  - intros name. rewrite find_first. split.
    + intros (earlier & later & E & Hx & Hpre).
      exists earlier, later. repeat split; [easy | now apply contains_iff|].
      intros e He Ho. apply contains_iff in Ho.
      now rewrite (Hpre e He) in Ho.
    + intros (earlier & later & E & Hx & Hpre).
      exists earlier, later. repeat split; [easy | now apply contains_iff|].
      intros e He. specialize (Hpre e He).
      rewrite <- contains_iff in Hpre. now destruct (contains _ _).
  - rewrite find_nothing. split.
    + intros H name Hn Ho. apply contains_iff in Ho.
      now rewrite (H name Hn) in Ho.
    + intros H name Hn. specialize (H name Hn).
      rewrite <- contains_iff in H. now destruct (contains _ _).
Qed.

(** C5. For a theme of a known category and a day count above the size
    of the category's pool, the sequencer returns [num_days] topics,
    topic [i] being [pool[i mod len(pool)]]: the pool repeated from its
    start in its own order, so that each topic from the pool's size on
    equals the topic one pool length earlier. *)
Theorem known_category_cycles (theme key : str) (pool : list str)
    (num_days : Z) :
  theme_key theme = Some key ->
  lookup key themes = Some pool ->
  (Z.of_nat (length pool) < num_days)%Z ->
  exists l,
    generate_topic_ideas theme num_days = Returns l /\
    Z.of_nat (length l) = num_days /\
    (forall i, i < length l ->
               nth_error l i = nth_error pool (i mod length pool)) /\
    (forall i, length pool <= i < length l ->
               nth_error l i = nth_error l (i - length pool)).
Proof.
  intros Hk Hp Hn.
  destruct (known_topics theme key num_days Hk) as (pool' & l & Hp' & H30 & E & Hl & Hc);
    [lia|].
  assert (pool' = pool) as -> by congruence.
  exists l. repeat split; try easy.
  intros i [Hlo Hhi]. rewrite (Hc i), (Hc (i - length pool)) by lia.
  f_equal.
  replace i with ((i - length pool) + 1 * length pool) at 1 by lia.
  apply Nat.Div0.mod_add.
Qed.

End Classifier.

Lemma known_category_cycles_witness :
  theme_key (py "Business") = Some (py "Business") /\
  lookup (py "Business") themes = Some business_topics /\
  (Z.of_nat (length business_topics) < 35)%Z /\
  exists l,
    generate_topic_ideas (py "Business") 35 = Returns l /\
    Z.of_nat (length l) = 35%Z /\
    (forall i, i < length l ->
               nth_error l i
               = nth_error business_topics (i mod length business_topics)) /\
    (forall i, length business_topics <= i < length l ->
               nth_error l i = nth_error l (i - length business_topics)).
Proof.
  split; [reflexivity|]. split; [reflexivity|]. split; [simpl; lia|].
  apply (known_category_cycles (py "Business") (py "Business")
           business_topics 35); [reflexivity | reflexivity | simpl; lia].
Defined.

(** The wrap-around of the 35-day example: topics 31 to 35 of the theme
    [Business] are topics 1 to 5. *)
Example business_35_days :
  exists l,
    generate_topic_ideas (py "Business") 35 = Returns l /\
    length business_topics = 30 /\
    firstn 5 (skipn 30 l) = firstn 5 l /\
    firstn 5 l = firstn 5 business_topics.
Proof. eexists. repeat split; vm_compute; reflexivity. Qed.

(** C4 on the code: for the theme [Fitness] and the day count [-1] both
    slices count from the end, and 28 topics are returned. *)
Lemma negative_day_count_known_theme :
  generate_topic_ideas (py "Fitness") (-1) = Returns (firstn 28 fitness_topics)
  /\ length (firstn 28 fitness_topics) = 28.
Proof. split; vm_compute; reflexivity. Qed.

Section NonPositive.
Context {U : Unicode}.

(** What holds of C4: the sequence is empty for a day count of 0, and
    for every non-positive day count when the theme is of no known
    category. *)
Lemma nonpositive_day_count_empty (theme : str) (num_days : Z) :
  (num_days <= 0)%Z -> theme_key theme = None \/ num_days = 0%Z ->
  generate_topic_ideas theme num_days = Returns [].
Proof.
  intros Hn [Hk| ->].
  - destruct (unknown_topics theme num_days Hk) as (l & E & Hl & _).
    rewrite E. destruct l; [easy | simpl in Hl; lia].
  - destruct (topics_total theme 0) as (l & E & Hl); [lia|].
    rewrite E. destruct l; [easy | simpl in Hl; lia].
Qed.

End NonPositive.

(* ================================================================== *)
(** * Further properties of the sequencer *)
(* ================================================================== *)

(** The loop does nothing once there are [num_days] topics. *)
Lemma extend_loop_done (fuel : nat) (pool l : list str) (num_days : Z) :
  (num_days <= Z.of_nat (length l))%Z ->
  extend_loop fuel pool l num_days = Returns l.
Proof.
  intros H. destruct fuel; cbn [extend_loop];
    now destruct (Z.ltb_spec (Z.of_nat (length l)) num_days); [lia|].
Qed.

Section Sequencer.
Context {U : Unicode}.

(** X1. For a theme of no known category and a day count that is not
    negative, topic [i] is the theme, a colon and a space, and the
    generic topic [i mod 30]. *)
Theorem unknown_theme_topics (theme : str) (num_days : Z) :
  theme_key theme = None -> (0 <= num_days)%Z ->
  exists l,
    generate_topic_ideas theme num_days = Returns l /\
    Z.of_nat (length l) = num_days /\
    forall i, i < length l ->
              exists base_topic,
                nth_error base_topics (i mod length base_topics)
                  = Some base_topic /\
                nth_error l i = Some (theme ++ py ": " ++ base_topic).
Proof.
  intros Hk Hn.
  destruct (unknown_topics theme num_days Hk) as (l & E & Hl & Hi).
  exists l. repeat split; [easy | lia |].
  intros i Hlt. rewrite base_topics_length. apply Hi. lia.
Qed.

(** X2. For a theme of a known category and a day count within the
    pool, the topics are the first [num_days] entries of the pool, in
    the pool's order. *)
Theorem known_theme_prefix (theme key : str) (pool : list str)
    (num_days : Z) :
  theme_key theme = Some key ->
  lookup key themes = Some pool ->
  (0 <= num_days <= Z.of_nat (length pool))%Z ->
  generate_topic_ideas theme num_days
    = Returns (firstn (Z.to_nat num_days) pool).
Proof.
  intros Hk Hp Hn.
  destruct (themes_pools _ (theme_key_in _ _ Hk)) as (Hne & _).
  destruct key as [|c key]; [easy|].
  unfold generate_topic_ideas, generate_topic_ideas_in.
  rewrite Hk. cbn beta iota. rewrite Hp.
  rewrite slice_to_nonneg by lia.
  assert (Hlen : length (firstn (Z.to_nat num_days) pool) = Z.to_nat num_days)
    by (rewrite length_firstn; lia).
  rewrite extend_loop_done by lia.
  now rewrite slice_to_all by lia.
Qed.

(** X3. For a theme of a known category and a negative day count [-k]
    the two slices each drop [k] entries from the end of the pool:
    [len(pool) - 2k] topics are returned when that is positive. *)
Theorem negative_day_count_slices (theme key : str) (pool : list str)
    (num_days : Z) :
  theme_key theme = Some key ->
  lookup key themes = Some pool ->
  (num_days < 0)%Z ->
  generate_topic_ideas theme num_days
    = Returns (firstn (length pool - 2 * Z.to_nat (- num_days)) pool).
Proof.
  intros Hk Hp Hn.
  destruct (themes_pools _ (theme_key_in _ _ Hk)) as (Hne & _).
  destruct key as [|c key]; [easy|].
  unfold generate_topic_ideas, generate_topic_ideas_in.
  rewrite Hk. cbn beta iota. rewrite Hp.
  rewrite extend_loop_done by lia.
  unfold slice_to. destruct (Z.ltb_spec num_days 0); [|lia].
  rewrite firstn_firstn, length_firstn. f_equal. f_equal. lia.
Qed.

End Sequencer.

Lemma unknown_theme_topics_witness :
  theme_key (py "Unknown Theme Test") = None /\ (0 <= 3)%Z /\
  exists l,
    generate_topic_ideas (py "Unknown Theme Test") 3 = Returns l /\
    Z.of_nat (length l) = 3%Z /\
    forall i, i < length l ->
              exists base_topic,
                nth_error base_topics (i mod length base_topics)
                  = Some base_topic /\
                nth_error l i
                  = Some (py "Unknown Theme Test" ++ py ": " ++ base_topic).
Proof.
  split; [reflexivity|]. split; [lia|].
  apply (unknown_theme_topics (py "Unknown Theme Test") 3); [reflexivity | lia].
Defined.

Lemma known_theme_prefix_witness :
  theme_key (py "Fitness for Busy Professionals") = Some (py "Fitness") /\
  lookup (py "Fitness") themes = Some fitness_topics /\
  (0 <= 5 <= Z.of_nat (length fitness_topics))%Z /\
  generate_topic_ideas (py "Fitness for Busy Professionals") 5
    = Returns (firstn 5 fitness_topics).
Proof.
  split; [reflexivity|]. split; [reflexivity|]. split; [simpl; lia|].
  apply (known_theme_prefix (py "Fitness for Busy Professionals")
           (py "Fitness") fitness_topics 5);
    [reflexivity | reflexivity | simpl; lia].
Defined.

Lemma negative_day_count_slices_witness :
  theme_key (py "Technology Trends") = Some (py "Technology") /\
  lookup (py "Technology") themes = Some technology_topics /\
  (-3 < 0)%Z /\
  generate_topic_ideas (py "Technology Trends") (-3)
    = Returns (firstn 24 technology_topics).
Proof.
  split; [reflexivity|]. split; [reflexivity|]. split; [lia|].
  apply (negative_day_count_slices (py "Technology Trends")
           (py "Technology") technology_topics (-3));
    [reflexivity | reflexivity | lia].
Defined.

(* ================================================================== *)
(** * Further properties of the model-backed operations *)
(* ================================================================== *)

Section HashtagAcceptance.
Context {U : Unicode}.

(** X5. With the model loaded, the hashtag response is accepted exactly
    when at least three [#word] matches are found in its trimmed text;
    the first five matches are returned, joined by spaces.  Otherwise,
    and when the service fails, the rule-based hashtags are
    substituted. *)
Theorem hashtags_acceptance (self : LLMContentGenerator)
    (topic theme : str) (w : world) :
  use_llm self = true ->
  (forall s, text_service w (asked w) = Text s ->
             3 <= length (findall_hashtags None (strip s)) ->
             generate_hashtags_with_llm self topic theme w
               = Returns (join [space]
                            (firstn 5 (findall_hashtags None (strip s))),
                          advance w)) /\
  (text_service w (asked w) = Raised \/
   (exists s, text_service w (asked w) = Text s /\
              length (findall_hashtags None (strip s)) < 3) ->
   generate_hashtags_with_llm self topic theme w
     = generate_hashtags topic theme (advance w)).
Proof.
  intros Hu. unfold generate_hashtags_with_llm. rewrite Hu. cbn [negb].
  unfold bind, request_text, fallback_hashtags. split.
  - intros s -> Hlen.
    destruct (strip s) as [|c hashtags]; [simpl in Hlen; lia|].
    destruct (Nat.leb_spec 3 (length (findall_hashtags None (c :: hashtags))));
      [|lia].
    now rewrite slice_to_nonneg by lia.
  - intros [-> | (s & -> & Hlen)]; [easy|].
    destruct (strip s) as [|c hashtags]; [easy|].
    destruct (Nat.leb_spec 3 (length (findall_hashtags None (c :: hashtags))));
      [lia | easy].
Qed.

End HashtagAcceptance.

Lemma hashtags_acceptance_witness :
  use_llm (mkGenerator true) = true /\
  generate_hashtags_with_llm (mkGenerator true) (py "Yoga") (py "Fitness")
    (world_of [0] TopicsRaised (Text (py "Tags: #fit, #yoga_1 #a #b #c #d")))
  = Returns (py "#fit #yoga_1 #a #b #c",
             advance (world_of [0] TopicsRaised
                        (Text (py "Tags: #fit, #yoga_1 #a #b #c #d")))).
Proof.
  split; [reflexivity|].
  refine (eq_trans
            (proj1 (hashtags_acceptance (mkGenerator true) (py "Yoga")
                      (py "Fitness")
                      (world_of [0] TopicsRaised
                         (Text (py "Tags: #fit, #yoga_1 #a #b #c #d")))
                      eq_refl)
                   (py "Tags: #fit, #yoga_1 #a #b #c #d") eq_refl _) _).
  - vm_compute. lia.
  - vm_compute. reflexivity.
Defined.

(* ================================================================== *)
(** * Effects of the rule-based operations *)
(* ================================================================== *)

Lemma moved_zero (w : world) : moved 0 0 w = w.
Proof. now destruct w. Qed.

Lemma moved_moved (d a d' a' : nat) (w : world) :
  moved d a (moved d' a' w) = moved (d + d') (a + a') w.
Proof. unfold moved; simpl. f_equal; lia. Qed.

Section Effects.
Context {A B : Type}.

Lemma costs_ret (x : A) : costs 0 (ret x).
Proof. intros w y w' [= <- <-]. symmetry. apply moved_zero. Qed.

Lemma costs_raise (d : nat) (e : exn) : costs d (@raise A e).
Proof. intros w y w' E. discriminate E. Qed.

Lemma costs_lift (o : outcome A) : costs 0 (lift o).
Proof.
  intros w y w'. unfold lift. destruct o; try easy.
  intros [= <- <-]. symmetry. apply moved_zero.
Qed.

Lemma costs_bind (d1 d2 : nat) (m : M A) (k : A -> M B) :
  costs d1 m -> (forall x, costs d2 (k x)) -> costs (d2 + d1) (bind m k).
Proof.
  intros Hm Hk w y w'. unfold bind.
  destruct (m w) as [[x w1]| |] eqn:E; try easy. intros Ek.
  rewrite (Hk _ _ _ _ Ek), (Hm _ _ _ E), moved_moved. reflexivity.
Qed.

Lemma costs_eq (d d' : nat) (m : M A) : costs d m -> d = d' -> costs d' m.
Proof. now intros H <-. Qed.

Lemma frame_ret (x : A) : frame (ret x).
Proof. now intros a w. Qed.

Lemma frame_raise (e : exn) : frame (@raise A e).
Proof. now intros a w. Qed.

Lemma frame_lift (o : outcome A) : frame (lift o).
Proof. intros a w. now destruct o. Qed.

Lemma frame_bind (m : M A) (k : A -> M B) :
  frame m -> (forall x, frame (k x)) -> frame (bind m k).
Proof.
  intros Hm Hk a w. unfold bind. rewrite Hm.
  destruct (m w) as [[x w1]| |]; simpl; [apply Hk | easy | easy].
Qed.

End Effects.

Lemma costs_index {A} (l : list A) (i : nat) : costs 0 (index l i).
Proof.
  unfold index. destruct (nth_error l i); [apply costs_ret | apply costs_raise].
Qed.

Lemma costs_store {A} (l : list A) (i : nat) (v : A) : costs 0 (store l i v).
Proof.
  unfold store. destruct (assign l i v); [apply costs_ret | apply costs_raise].
Qed.

Lemma frame_index {A} (l : list A) (i : nat) : frame (index l i).
Proof.
  unfold index. destruct (nth_error l i); [apply frame_ret | apply frame_raise].
Qed.

Lemma frame_store {A} (l : list A) (i : nat) (v : A) : frame (store l i v).
Proof.
  unfold store. destruct (assign l i v); [apply frame_ret | apply frame_raise].
Qed.


Lemma costs_randbelow (n : nat) : costs 1 (randbelow n).
Proof. now intros w x w' [= <- <-]. Qed.

Lemma frame_randbelow (n : nat) : frame (randbelow n).
Proof. now intros a w. Qed.

(** Decomposes a computation along its binds, for [costs] and [frame]. *)
Ltac effects :=
  repeat first
    [ apply costs_ret | apply costs_raise | apply costs_lift
    | apply costs_index | apply costs_store | apply costs_randbelow
    | apply frame_ret | apply frame_raise | apply frame_lift
    | apply frame_index | apply frame_store | apply frame_randbelow
    | apply frame_bind; [|intros ?]
    | apply costs_bind; [|intros ?] ].

Section SamplingEffects.
Context {A : Type}.

Lemma costs_sample_rounds (k : nat) : forall n (pool : list A),
  costs k (sample_rounds k n pool).
Proof.
  induction k as [|k IH]; intros n pool; cbn [sample_rounds];
    [apply costs_ret|].
  eapply costs_eq.
  - apply costs_bind; [apply costs_randbelow | intros j].
    apply costs_bind; [apply costs_index | intros x].
    apply costs_bind; [apply costs_index | intros y].
    apply costs_bind; [apply costs_store | intros pool'].
    apply costs_bind; [apply IH | intros rest]. apply costs_ret.
  - lia.
Qed.

Lemma frame_sample_rounds (k : nat) : forall n (pool : list A),
  frame (sample_rounds k n pool).
Proof.
  induction k as [|k IH]; intros n pool; cbn [sample_rounds]; [apply frame_ret|].
  apply frame_bind; [apply frame_randbelow | intros j].
  apply frame_bind; [apply frame_index | intros x].
  apply frame_bind; [apply frame_index | intros y].
  apply frame_bind; [apply frame_store | intros pool'].
  apply frame_bind; [apply IH | intros rest]. apply frame_ret.
Qed.

Lemma costs_sample (population : list A) (k : nat) :
  costs k (sample population k).
Proof.
  unfold sample. destruct (length population <? k);
    [apply costs_raise | apply costs_sample_rounds].
Qed.

Lemma frame_sample (population : list A) (k : nat) :
  frame (sample population k).
Proof.
  unfold sample. destruct (length population <? k);
    [apply frame_raise | apply frame_sample_rounds].
Qed.

Lemma costs_choice (seq : list A) : costs 1 (choice seq).
Proof.
  unfold choice. destruct (length seq); [apply costs_raise|].
  eapply costs_eq; [effects | reflexivity].
Qed.

Lemma frame_choice (seq : list A) : frame (choice seq).
Proof. unfold choice. destruct (length seq); effects. Qed.

End SamplingEffects.

Section OperationEffects.
Context {U : Unicode}.

Lemma costs_generate_caption (topic theme : str) :
  costs 1 (generate_caption topic theme).
Proof.
  unfold generate_caption. eapply costs_eq.
  - apply costs_bind; [apply costs_choice | intros c; apply costs_ret].
  - reflexivity.
Qed.

Lemma frame_generate_caption (topic theme : str) :
  frame (generate_caption topic theme).
Proof.
  unfold generate_caption.
  apply frame_bind; [apply frame_choice | intros c; apply frame_ret].
Qed.

Lemma hashtag_category_pool (theme key : str) (pool : list str) :
  hashtag_category theme = Some (key, pool) ->
  In (key, pool) theme_hashtags /\ length pool = 6 /\
  sound_pool pool = true /\ contains key (lower theme) = true.
Proof.
  unfold hashtag_category. intros Ef. apply find_some in Ef as [Hin Hc].
  pose proof theme_hashtags_sound as Hs. rewrite forallb_forall in Hs.
  apply Hs in Hin as Hp. simpl in Hp. apply andb_prop in Hp as [Hp Hl].
  apply Nat.eqb_eq in Hl. easy.
Qed.

Lemma costs_generate_hashtags (topic theme : str) :
  costs (draws_per_day theme - 1) (generate_hashtags topic theme).
Proof.
  unfold generate_hashtags, draws_per_day, theme_specific.
  fold (hashtag_category theme).
  destruct (hashtag_category theme) as [[key pool]|] eqn:Ec.
  - destruct (hashtag_category_pool _ _ _ Ec) as (_ & Hl & _). rewrite Hl.
    eapply costs_eq.
    + apply costs_bind; [apply costs_sample | intros specific].
      apply costs_bind; [apply costs_sample | intros general].
      apply costs_ret.
    + reflexivity.
  - eapply costs_eq.
    + apply costs_bind; [apply costs_ret | intros specific].
      apply costs_bind; [apply costs_sample | intros general].
      apply costs_ret.
    + reflexivity.
Qed.

Lemma frame_generate_hashtags (topic theme : str) :
  frame (generate_hashtags topic theme).
Proof.
  unfold generate_hashtags, theme_specific.
  apply frame_bind.
  - destruct (find _ theme_hashtags) as [[key pool]|];
      [apply frame_sample | apply frame_ret].
  - intros specific. apply frame_bind; [apply frame_sample | intros general].
    apply frame_ret.
Qed.

Lemma costs_plan_loop (dc dh : nat)
    (caption_for hashtags_for : str -> str -> M str) (theme : str) :
  (forall t, costs dc (caption_for t theme)) ->
  (forall t, costs dh (hashtags_for t theme)) ->
  forall todo plan i,
    costs (length todo * (dc + dh))
          (plan_loop caption_for hashtags_for theme plan i todo).
Proof.
  intros Hc Hh. induction todo as [|t todo IH]; intros plan i;
    cbn [plan_loop]; [apply costs_ret|].
  eapply costs_eq.
  - apply costs_bind; [apply Hc | intros c].
    apply costs_bind; [apply Hh | intros h]. apply IH.
  - simpl. lia.
Qed.

(** What a returning run of the pipeline consists of. *)
Lemma run_stages (theme : str) (num_days : Z) (w : world)
    (st : ContentState) (w' : world) :
  run theme num_days w = Returns (st, w') ->
  exists l rows,
    generate_topic_ideas theme num_days = Returns l /\
    plan_loop generate_caption generate_hashtags theme [] 1%Z l w
      = Returns (rows, w') /\
    st = mkState theme num_days l rows.
Proof.
  unfold run, day_planner_node, content_generator_node, formatter_node,
    save_node, bind, lift, ret. cbn [brand_theme days topics content_plan].
  destruct (generate_topic_ideas theme num_days) as [l| |]; try easy.
  cbn [brand_theme days topics content_plan].
  destruct (plan_loop _ _ _ _ _ _ _) as [[rows w1]| |] eqn:Ep; try easy.
  intros [= <- <-]. now exists l, rows.
Qed.

(** X6. A run of the rule-based pipeline makes no request to the
    completion service and draws from the random generator exactly 3
    times per day, or 5 times per day when the theme names a hashtag
    category: one draw for the caption, two for the category tags, two
    for the generic tags. *)
Theorem run_draws (theme : str) (num_days : Z) (w : world) :
  (0 <= num_days)%Z ->
  exists st,
    run theme num_days w
      = Returns (st, moved (Z.to_nat num_days * draws_per_day theme) 0 w) /\
    asked (moved (Z.to_nat num_days * draws_per_day theme) 0 w) = asked w.
Proof.
  intros Hn.
  destruct (topics_total theme num_days Hn) as (l & El & Hl).
  destruct (stages_after_plan theme num_days l w El) as (rows & w' & Er & _).
  destruct (run_stages _ _ _ _ _ Er) as (l' & rows' & El' & Ep & _).
  assert (l' = l) as -> by congruence.
  pose proof (costs_plan_loop 1 (draws_per_day theme - 1) generate_caption
                generate_hashtags theme
                (fun t => costs_generate_caption t theme)
                (fun t => costs_generate_hashtags t theme)
                l [] 1%Z w rows' w' Ep) as Hw.
  exists (mkState theme num_days l rows). split; [|reflexivity].
  rewrite Er, Hw. do 3 f_equal.
  replace (length l) with (Z.to_nat num_days) by lia.
  unfold draws_per_day. destruct (hashtag_category theme); reflexivity.
Qed.

End OperationEffects.

Lemma run_draws_witness :
  (0 <= 2)%Z /\
  exists st,
    run (py "Fitness") 2 (world_of [3; 1; 4; 1; 5] TopicsRaised Raised)
      = Returns (st, moved 10 0 (world_of [3; 1; 4; 1; 5] TopicsRaised Raised)).
Proof.
  split; [lia|].
  destruct (run_draws (py "Fitness") 2
              (world_of [3; 1; 4; 1; 5] TopicsRaised Raised))
    as (st & E & _); [lia|].
  exists st. exact E.
Defined.

(* ================================================================== *)
(** * The model-backed pipeline when the service fails *)
(* ================================================================== *)

Section Degraded.
Context {U : Unicode}.

Lemma caption_when_service_fails (topic theme : str) (w : world) :
  text_service w (asked w) = Raised ->
  generate_caption_with_llm (mkGenerator true) topic theme w
    = shift 1 (generate_caption topic theme w).
Proof.
  intros H. unfold generate_caption_with_llm, bind, request_text,
    fallback_caption. cbn [use_llm negb]. rewrite H.
  apply (frame_generate_caption topic theme 1 w).
Qed.

Lemma hashtags_when_service_fails (topic theme : str) (w : world) :
  text_service w (asked w) = Raised ->
  generate_hashtags_with_llm (mkGenerator true) topic theme w
    = shift 1 (generate_hashtags topic theme w).
Proof.
  intros H. unfold generate_hashtags_with_llm, bind, request_text,
    fallback_hashtags. cbn [use_llm negb]. rewrite H.
  apply (frame_generate_hashtags topic theme 1 w).
Qed.

Lemma plan_loop_when_service_fails (theme : str) :
  forall todo plan i a w,
    (forall k, text_service w k = Raised) ->
    plan_loop (generate_caption_with_llm (mkGenerator true))
              (generate_hashtags_with_llm (mkGenerator true))
              theme plan i todo (moved 0 a w)
    = shift (2 * length todo + a)
            (plan_loop generate_caption generate_hashtags theme plan i todo w).
Proof.
  induction todo as [|t todo IH]; intros plan i a w Hs; [reflexivity|].
  cbn [plan_loop]. unfold bind.
  rewrite caption_when_service_fails by apply Hs.
  rewrite frame_generate_caption.
  destruct (generate_caption t theme w) as [[c w1]| |] eqn:Ec; try easy.
  pose proof (costs_generate_caption t theme _ _ _ Ec) as ->.
  cbn [shift].
  rewrite hashtags_when_service_fails by apply Hs.
  change (moved 0 1 (moved 0 a (moved 1 0 w)))
    with (moved 0 (1 + a) (moved 1 0 w)).
  rewrite frame_generate_hashtags.
  destruct (generate_hashtags t theme (moved 1 0 w)) as [[h w2]| |] eqn:Eh;
    try easy.
  pose proof (costs_generate_hashtags t theme _ _ _ Eh) as ->.
  cbn [shift].
  change (moved 0 1 (moved 0 (1 + a)
            (moved (draws_per_day theme - 1) 0 (moved 1 0 w))))
    with (moved 0 (2 + a) (moved (draws_per_day theme - 1) 0 (moved 1 0 w))).
  rewrite IH by apply Hs.
  f_equal. simpl. lia.
Qed.

(** X7. When the model is loaded but the service fails on every
    request, the model-backed pipeline returns exactly the state that
    the rule-based pipeline returns from the same random generator:
    the same topics and the same rows.  Only the count of requests
    differs: one for the topics and two per topic. *)
Theorem degraded_pipeline_is_rule_based (theme : str) (num_days : Z)
    (w : world) :
  (forall k, text_service w k = Raised) ->
  (forall items, topics_service w (asked w) <> TopicsDecoded items) ->
  generate_enhanced_content_plan
    (mkEnhanced (Some (mkGenerator true)) theme num_days) w
  = match run theme num_days w with
    | Returns (st, w') =>
        Returns (st, moved 0 (2 * length (topics st) + 1) w')
    | other => other
    end.
Proof.
  intros Hs Ht.
  unfold generate_enhanced_content_plan. cbn [llm_generator use_llm].
  unfold generate_with_llm. cbn [self_brand_theme self_days].
  unfold bind at 1.
  assert (Et : generate_topics_with_llm (mkGenerator true) theme num_days w
               = shift 1 (lift (generate_topic_ideas theme num_days) w)).
  { unfold generate_topics_with_llm, bind, request_topics, fallback_topics.
    cbn [use_llm negb].
    destruct (topics_service w (asked w)) as [| |items] eqn:E;
      [ apply (frame_lift _ 1 w) | apply (frame_lift _ 1 w)
      | exfalso; now apply (Ht items) ]. }
  rewrite Et.
  unfold run, day_planner_node, content_generator_node, formatter_node,
    save_node, bind, lift, ret. cbn [brand_theme days topics content_plan].
  destruct (generate_topic_ideas theme num_days) as [l| |]; try easy.
  cbn [shift brand_theme days topics content_plan].
  pose proof (plan_loop_when_service_fails theme l [] 1%Z 1 w Hs) as Ep.
  unfold bind in Ep. rewrite Ep.
  destruct (plan_loop generate_caption generate_hashtags theme [] 1%Z l w)
    as [[rows w1]| |]; easy.
Qed.

End Degraded.

Lemma degraded_pipeline_is_rule_based_witness :
  (forall k, text_service (world_of [7; 2] TopicsNoArray Raised) k = Raised) /\
  (forall items,
     topics_service (world_of [7; 2] TopicsNoArray Raised)
       (asked (world_of [7; 2] TopicsNoArray Raised)) <> TopicsDecoded items) /\
  generate_enhanced_content_plan
    (mkEnhanced (Some (mkGenerator true)) (py "Business") 2)
    (world_of [7; 2] TopicsNoArray Raised)
  = match run (py "Business") 2 (world_of [7; 2] TopicsNoArray Raised) with
    | Returns (st, w') =>
        Returns (st, moved 0 (2 * length (topics st) + 1) w')
    | other => other
    end.
Proof.
  split; [reflexivity|]. split; [discriminate|].
  apply (degraded_pipeline_is_rule_based (py "Business") 2
           (world_of [7; 2] TopicsNoArray Raised));
    [reflexivity | discriminate].
Defined.

(* ================================================================== *)
(** * Categories and repetition of topics *)
(* ================================================================== *)

Lemma ascii_check (s : str) :
  forallb (fun c => (c <? 128)%N) s = true -> Forall is_ascii s.
Proof.
  rewrite forallb_forall, Forall_forall. intros H c Hc.
  apply N.ltb_lt. now apply H.
Qed.

Lemma pools_distinct (key : str) (pool : list str) :
  lookup key themes = Some pool -> NoDup pool.
Proof.
  unfold themes. cbn [lookup].
  repeat (destruct (str_eqb key _);
          [intros [= <-]; apply distinct_nodup; now vm_compute|]).
  discriminate.
Qed.

Lemma base_topics_distinct : NoDup base_topics.
Proof. apply distinct_nodup. now vm_compute. Qed.

(** A list that follows a pool of distinct entries cyclically, through
    an injective map, is free of duplicates exactly when it is no longer
    than the pool. *)
Lemma cyclic_image_distinct {B} (f : str -> B) (pool : list str) (l : list B) :
  pool <> [] -> NoDup pool -> (forall x y, f x = f y -> x = y) ->
  (forall i, i < length l ->
             exists b, nth_error pool (i mod length pool) = Some b /\
                       nth_error l i = Some (f b)) ->
  NoDup l <-> length l <= length pool.
Proof.
  intros Hne Hnd Hinj Hl.
  assert (Hp : 0 < length pool) by (destruct pool; [easy | simpl; lia]).
  split.
  - intros Hd. destruct (Nat.le_gt_cases (length l) (length pool)); [easy|].
    exfalso.
    destruct (Hl 0) as (b0 & Hb0 & E0); [lia|].
    destruct (Hl (length pool)) as (bp & Hbp & Ep); [lia|].
    rewrite Nat.Div0.mod_same in Hbp. rewrite Nat.Div0.mod_0_l in Hb0.
    assert (bp = b0) as -> by congruence.
    rewrite NoDup_nth_error in Hd.
    specialize (Hd 0 (length pool)). rewrite E0, Ep in Hd.
    specialize (Hd ltac:(lia) eq_refl). lia.
  - intros Hle. apply NoDup_nth_error. intros i j Hi E.
    destruct (Hl i Hi) as (b & Hb & Ei). rewrite Ei in E.
    destruct (Nat.lt_ge_cases j (length l)) as [Hj|Hj].
    + destruct (Hl j Hj) as (b' & Hb' & Ej). rewrite Ej in E.
      injection E as E. apply Hinj in E. subst b'.
      rewrite Nat.mod_small in Hb, Hb' by lia.
      rewrite NoDup_nth_error in Hnd. apply Hnd; [lia | congruence].
    + apply nth_error_None in Hj. congruence.
Qed.

Section Categories.
Context {U : Unicode}.

(** X8. The hashtag synthesizer and the topic sequencer classify a
    theme alike: the key of the hashtag pool that [generate_hashtags]
    samples from is the lower-cased name of the category whose topics
    [generate_topic_ideas] uses, and neither has a category when the
    other has none. *)
Theorem category_agreement (theme : str) :
  option_map fst (hashtag_category theme) = option_map lower (theme_key theme).
Proof.
  assert (E1 : lower (py "Fitness") = py "fitness")
    by (rewrite lower_ascii; [reflexivity | now apply ascii_check]).
  assert (E2 : lower (py "Mental") = py "mental")
    by (rewrite lower_ascii; [reflexivity | now apply ascii_check]).
  assert (E3 : lower (py "Business") = py "business")
    by (rewrite lower_ascii; [reflexivity | now apply ascii_check]).
  assert (E4 : lower (py "Technology") = py "technology")
    by (rewrite lower_ascii; [reflexivity | now apply ascii_check]).
  unfold hashtag_category, theme_key, theme_hashtags, themes.
  cbn [map fst find]. rewrite E1, E2, E3, E4.
  destruct (contains (py "fitness") (lower theme));
    [cbn [option_map fst]; now rewrite E1|].
  destruct (contains (py "mental") (lower theme));
    [cbn [option_map fst]; now rewrite E2|].
  destruct (contains (py "business") (lower theme));
    [cbn [option_map fst]; now rewrite E3|].
  destruct (contains (py "technology") (lower theme));
    [cbn [option_map fst]; now rewrite E4|].
  reflexivity.
Qed.

(** X9. For a day count that is not negative, the topics returned are
    pairwise distinct exactly when at most 30 days are asked for: the
    pools and the generic list have 30 distinct entries each, and day
    31 repeats day 1. *)
Theorem topics_distinct_iff (theme : str) (num_days : Z) :
  (0 <= num_days)%Z ->
  exists l,
    generate_topic_ideas theme num_days = Returns l /\
    (NoDup l <-> (num_days <= 30)%Z).
Proof.
  intros Hn. destruct (theme_key theme) as [key|] eqn:Hk.
  - destruct (known_topics theme key num_days Hk Hn)
      as (pool & l & Hp & H30 & E & Hl & Hc).
    exists l. split; [easy|].
    assert (Hne : pool <> []) by (intros ->; discriminate H30).
    rewrite (cyclic_image_distinct (fun x => x) pool l Hne
               (pools_distinct _ _ Hp) (fun x y E => E)); [lia|].
    intros i Hi. rewrite <- (Hc i Hi).
    destruct (nth_error l i) as [b|] eqn:Eb; [now exists b|].
    apply nth_error_None in Eb. lia.
  - destruct (unknown_topics theme num_days Hk) as (l & E & Hl & Hi).
    exists l. split; [easy|].
    assert (Hne : base_topics <> []) by discriminate.
    assert (Hinj : forall x y : str,
               theme ++ py ": " ++ x = theme ++ py ": " ++ y -> x = y).
    { intros x y Exy. now do 2 apply app_inv_head in Exy. }
    rewrite (cyclic_image_distinct (fun b => theme ++ py ": " ++ b)
               base_topics l Hne base_topics_distinct Hinj).
    + rewrite base_topics_length. unfold str in *. lia.
    + intros i Hlt. rewrite base_topics_length. apply Hi.
      unfold str in *. lia.
Qed.

End Categories.

Lemma topics_distinct_iff_witness :
  (0 <= 31)%Z /\
  exists l,
    generate_topic_ideas (py "Mental Health") 31 = Returns l /\
    (NoDup l <-> (31 <= 30)%Z).
Proof.
  split; [lia|].
  apply (topics_distinct_iff (py "Mental Health") 31). lia.
Defined.

(* ================================================================== *)
(** * The rows of a plan *)
(* ================================================================== *)

Lemma pools_nonempty_entries (key : str) (pool : list str) :
  lookup key themes = Some pool -> forall t, In t pool -> t <> [].
Proof.
  assert (Hcheck : forall p, forallb (fun t => negb (str_eqb t [])) p = true ->
                             forall t, In t p -> t <> []).
  { intros p Hp t Ht ->. rewrite forallb_forall in Hp.
    now apply Hp in Ht. }
  unfold themes. cbn [lookup].
  repeat (destruct (str_eqb key _);
          [intros [= <-]; apply Hcheck; now vm_compute|]).
  discriminate.
Qed.

(** Every row that the loop adds satisfies what the caption and hashtag
    operations guarantee of their results. *)
Lemma plan_loop_each (Pc Ph : str -> str -> Prop)
    (caption_for hashtags_for : str -> str -> M str) (theme : str) :
  (forall t w c w', caption_for t theme w = Returns (c, w') -> Pc t c) ->
  (forall t w h w', hashtags_for t theme w = Returns (h, w') -> Ph t h) ->
  forall todo plan i w rows w',
    plan_loop caption_for hashtags_for theme plan i todo w
      = Returns (rows, w') ->
    Forall (fun e => Pc (Topic e) (Caption e) /\ Ph (Topic e) (Hashtags e)) plan ->
    Forall (fun e => Pc (Topic e) (Caption e) /\ Ph (Topic e) (Hashtags e)) rows.
Proof.
  intros Hc Hh. induction todo as [|t todo IH]; intros plan i w rows w';
    cbn [plan_loop].
  - now intros [= <- <-].
  - unfold bind.
    destruct (caption_for t theme w) as [[c w1]| |] eqn:Ec; try easy.
    destruct (hashtags_for t theme w1) as [[h w2]| |] eqn:Eh; try easy.
    intros E Hplan. apply (IH _ _ _ _ _ E).
    apply Forall_app. split; [easy|]. constructor; [|constructor].
    simpl. split; [apply (Hc _ _ _ _ Ec) | apply (Hh _ _ _ _ Eh)].
Qed.

Section Rows.
Context {U : Unicode}.

Lemma caption_shape (topic theme : str) (w : world) (c : str) (w' : world) :
  generate_caption topic theme w = Returns (c, w') ->
  c <> [] /\ contains topic c = true.
Proof.
  intros E.
  destruct (generate_caption_run topic theme w) as (j & c' & w'' & E' & _ & Hn).
  assert (c' = c) as -> by congruence.
  now destruct (templates_fields _ _ _ _ Hn) as (_ & Hne & Ht & _).
Qed.

Lemma hashtags_shape (topic theme : str) (w : world) (out : str) (w' : world) :
  generate_hashtags topic theme w = Returns (out, w') ->
  2 <= length (split_on space out) <= 5 /\
  NoDup (split_on space out) /\
  forall t, In t (split_on space out) ->
            exists body, t = hash :: body /\ 2 < length body.
Proof.
  intros E.
  destruct (generate_hashtags_tokens topic theme w)
    as (specific & w1 & g1 & g2 & w2 & tokens & _ & _ & E' & -> & Hsplit &
        _ & _ & _ & _ & Htwo).
  assert (out = join [space] (tokens_of (base_hashtags topic theme ++
                                          specific ++ [g1; g2])))
    as -> by congruence.
  rewrite Hsplit.
  destruct (tokens_of_spec (base_hashtags topic theme ++ specific ++ [g1; g2]))
    as (Hle & Hnd & Hbody).
  repeat split; try easy.
  intros t Ht. destruct (Hbody t Ht) as (body & -> & Hlen & _). now exists body.
Qed.

Lemma topics_nonempty (theme : str) (num_days : Z) (l : list str) :
  (0 <= num_days)%Z -> generate_topic_ideas theme num_days = Returns l ->
  forall t, In t l -> t <> [].
Proof.
  intros Hn E t Ht. apply In_nth_error in Ht as [i Hi].
  assert (Hlt : i < length l) by (apply nth_error_Some; congruence).
  destruct (theme_key theme) as [key|] eqn:Hk.
  - destruct (known_topics theme key num_days Hk Hn)
      as (pool & l' & Hp & _ & E' & _ & Hc).
    assert (l' = l) as -> by congruence.
    rewrite (Hc i Hlt) in Hi. apply nth_error_In in Hi.
    now apply (pools_nonempty_entries _ _ Hp).
  - destruct (unknown_topics theme num_days Hk) as (l' & E' & Hl & Hb).
    assert (l' = l) as -> by congruence.
    destruct (Hb i) as (b & _ & Hi'); [unfold str in *; lia|].
    assert (t = theme ++ py ": " ++ b) as -> by congruence.
    intros F. apply app_eq_nil in F as [_ F]. discriminate F.
Qed.

(** X10. Every row of a plan of the rule-based pipeline is well formed:
    its topic is one of the topics and is not empty, its caption is not
    empty and contains the topic, and its hashtags are between 2 and 5
    tokens, pairwise distinct, each a [#] followed by more than two
    characters. *)
Theorem plan_rows_wellformed (theme : str) (num_days : Z) (w : world) :
  (0 <= num_days)%Z ->
  exists st w',
    run theme num_days w = Returns (st, w') /\
    forall e, In e (content_plan st) ->
      In (Topic e) (topics st) /\ Topic e <> [] /\
      Caption e <> [] /\ contains (Topic e) (Caption e) = true /\
      2 <= length (split_on space (Hashtags e)) <= 5 /\
      NoDup (split_on space (Hashtags e)) /\
      forall t, In t (split_on space (Hashtags e)) ->
                exists body, t = hash :: body /\ 2 < length body.
Proof.
  intros Hn.
  destruct (topics_total theme num_days Hn) as (l & El & _).
  destruct (stages_after_plan theme num_days l w El)
    as (rows & w' & Er & Hlen & Hk).
  exists (mkState theme num_days l rows), w'. split; [easy|].
  cbn [content_plan topics]. intros e He.
  destruct (run_stages _ _ _ _ _ Er) as (l' & rows' & El' & Ep & Est).
  injection Est as <- <-.
  assert (Hin : In (Topic e) l).
  { apply In_nth_error in He as [k Hk'].
    assert (Hlt : k < length l)
      by (rewrite <- Hlen; apply nth_error_Some; congruence).
    destruct (nth_error l k) as [t|] eqn:Et;
      [|apply nth_error_None in Et; lia].
    destruct (Hk k t Et) as (e' & He' & _ & Ht).
    assert (e' = e) as -> by congruence.
    rewrite Ht. now apply nth_error_In in Et. }
  pose proof (plan_loop_each
                (fun t c => c <> [] /\ contains t c = true)
                (fun _ h =>
                   2 <= length (split_on space h) <= 5 /\
                   NoDup (split_on space h) /\
                   forall t, In t (split_on space h) ->
                             exists body, t = hash :: body /\ 2 < length body)
                generate_caption generate_hashtags theme
                (fun t => caption_shape t theme)
                (fun t => hashtags_shape t theme)
                l [] 1%Z w rows w' Ep (Forall_nil _)) as Hall.
  rewrite Forall_forall in Hall. destruct (Hall e He) as [[Hc1 Hc2] Hh].
  split; [easy|]. split; [now apply (topics_nonempty theme num_days l Hn El)|].
  easy.
Qed.

(** X11. On every backend and whatever the service answers, the rows of
    the enhanced workflow are as many as its topics, row [i] (from 0)
    carrying the day [i + 1] and the topic [topics[i]]. *)
Theorem enhanced_rows_follow_topics (self : EnhancedContentCreatorWorkflow)
    (w : world) :
  (0 <= self_days self)%Z ->
  exists st w',
    generate_enhanced_content_plan self w = Returns (st, w') /\
    length (content_plan st) = length (topics st) /\
    forall i topic, nth_error (topics st) i = Some topic ->
                    exists e, nth_error (content_plan st) i = Some e /\
                              Day e = (Z.of_nat i + 1)%Z /\ Topic e = topic.
Proof.
  intros Hn.
  assert (Hrule : exists st w',
             run (self_brand_theme self) (self_days self) w = Returns (st, w') /\
             length (content_plan st) = length (topics st) /\
             forall i topic, nth_error (topics st) i = Some topic ->
                    exists e, nth_error (content_plan st) i = Some e /\
                              Day e = (Z.of_nat i + 1)%Z /\ Topic e = topic).
  { destruct (topics_total (self_brand_theme self) (self_days self) Hn)
      as (l & El & _).
    destruct (stages_after_plan _ _ l w El) as (rows & w' & Er & Hlen & Hk).
    exists (mkState (self_brand_theme self) (self_days self) l rows), w'.
    cbn [content_plan topics]. repeat split; try easy.
    intros i topic Hi. destruct (Hk i topic Hi) as (e & He & Hd & Ht).
    exists e. repeat split; [easy | lia | easy]. }
  unfold generate_enhanced_content_plan.
  destruct (llm_generator self) as [[[|]]|]; cbn [use_llm]; try exact Hrule.
  clear Hrule.
  destruct (generate_topics_with_llm_cases (self_brand_theme self)
              (self_days self) w Hn) as (l & El & _).
  destruct (plan_loop_spec (generate_caption_with_llm (mkGenerator true))
              (generate_hashtags_with_llm (mkGenerator true))
              (self_brand_theme self)
              (fun t => generate_caption_with_llm_total _ t _)
              (fun t => generate_hashtags_with_llm_total _ t _)
              l [] 1%Z (advance w))
    as (rows & w' & Ep & Hlen & Hk).
  exists (mkState (self_brand_theme self) (self_days self) l rows), w'.
  cbn [content_plan topics]. repeat split; try easy.
  - unfold generate_with_llm, bind. now rewrite El, Ep.
  - intros i topic Hi. destruct (Hk i topic Hi) as (e & He & Hd & Ht).
    exists e. repeat split; [easy | lia | easy].
Qed.

End Rows.

Lemma plan_rows_wellformed_witness :
  (0 <= 2)%Z /\
  exists st w',
    run (py "Technology Trends") 2 (world_of [4; 4; 0] TopicsRaised Raised)
      = Returns (st, w') /\
    forall e, In e (content_plan st) ->
      In (Topic e) (topics st) /\ Topic e <> [] /\
      Caption e <> [] /\ contains (Topic e) (Caption e) = true /\
      2 <= length (split_on space (Hashtags e)) <= 5 /\
      NoDup (split_on space (Hashtags e)) /\
      forall t, In t (split_on space (Hashtags e)) ->
                exists body, t = hash :: body /\ 2 < length body.
Proof.
  split; [lia|].
  apply (plan_rows_wellformed (py "Technology Trends") 2
           (world_of [4; 4; 0] TopicsRaised Raised)). lia.
Defined.

Lemma enhanced_rows_follow_topics_witness :
  (0 <= self_days (mkEnhanced (Some (mkGenerator true)) (py "Fitness") 3))%Z /\
  exists st w',
    generate_enhanced_content_plan
      (mkEnhanced (Some (mkGenerator true)) (py "Fitness") 3)
      (world_of [1; 6]
         (TopicsDecoded [JString (py "Plank"); JOther; JString (py "Squat")])
         (Text (py "Move every day and enjoy it")))
      = Returns (st, w') /\
    length (content_plan st) = length (topics st) /\
    forall i topic, nth_error (topics st) i = Some topic ->
                    exists e, nth_error (content_plan st) i = Some e /\
                              Day e = (Z.of_nat i + 1)%Z /\ Topic e = topic.
Proof.
  split; [simpl; lia|].
  apply (enhanced_rows_follow_topics
           (mkEnhanced (Some (mkGenerator true)) (py "Fitness") 3)
           (world_of [1; 6]
              (TopicsDecoded [JString (py "Plank"); JOther; JString (py "Squat")])
              (Text (py "Move every day and enjoy it")))).
  simpl; lia.
Defined.

(* ================================================================== *)
(** * Placement and provenance of the hashtags *)
(* ================================================================== *)

Lemma tokens_of_length (hashtags : list str) :
  length (tokens_of hashtags) <= length hashtags.
Proof.
  unfold tokens_of, fromkeys. rewrite slice_to_nonneg by lia.
  pose proof (firstn_le_length (Z.to_nat 5)
                (fromkeys_from [] (map (fun tag => hash :: tag)
                                       (filter keeps hashtags)))).
  rewrite length_firstn.
  pose proof (fromkeys_from_length
                (map (fun tag => hash :: tag) (filter keeps hashtags)) []) as H1.
  rewrite length_map in H1.
  pose proof (filter_length_le keeps hashtags). unfold str, char in *. lia.
Qed.

(** A kept tag at the head of the list is the first token. *)
Lemma tokens_of_head (x : str) (rest : list str) :
  keeps x = true ->
  tokens_of (x :: rest)
  = (hash :: x)
      :: firstn 4 (fromkeys_from [hash :: x]
                     (map (fun tag => hash :: tag) (filter keeps rest))).
Proof.
  intros Hk. unfold tokens_of, fromkeys. rewrite slice_to_nonneg by lia.
  cbn [filter]. rewrite Hk. reflexivity.
Qed.

Section Placement.
Context {U : Unicode}.

Lemma base_hashtags_cases (topic theme : str) :
  base_hashtags topic theme
  = if length (topic_tag topic) <=? 20
    then [remove_spaces theme; topic_tag topic]
    else [remove_spaces theme].
Proof. reflexivity. Qed.

Lemma theme_specific_members (theme : str) (w : world)
    (specific : list str) (w1 : world) :
  theme_specific theme w = Returns (specific, w1) ->
  match hashtag_category theme with
  | Some (_, pool) => forall t, In t specific -> In t pool
  | None => specific = []
  end.
Proof.
  unfold theme_specific. fold (hashtag_category theme).
  destruct (hashtag_category theme) as [[key pool]|] eqn:Ec.
  - destruct (hashtag_category_pool _ _ _ Ec) as (_ & Hl & _). rewrite Hl.
    destruct (sample_spec pool 2 w) as (l & w' & E & _ & others & Hp); [lia|].
    change (Nat.min 2 6) with 2. rewrite E. intros [= <- <-] t Ht.
    apply (Permutation_in _ (Permutation_sym Hp)). apply in_or_app. now left.
  - now intros [= <- <-].
Qed.

(** X12. The theme tag wins the first place: when the theme without its
    spaces is longer than two characters, the first token of the output
    is [#] followed by it.  The topic tag wins the second place when it
    has between 3 and 20 characters and differs from the theme tag. *)
Theorem hashtags_placement (topic theme : str) (w : world) :
  2 < length (remove_spaces theme) ->
  exists out w' rest,
    generate_hashtags topic theme w = Returns (out, w') /\
    split_on space out = (hash :: remove_spaces theme) :: rest /\
    (2 < length (topic_tag topic) <= 20 ->
     topic_tag topic <> remove_spaces theme ->
     exists rest', rest = (hash :: topic_tag topic) :: rest').
Proof.
  intros Hlen.
  destruct (generate_hashtags_tokens topic theme w)
    as (specific & w1 & g1 & g2 & w2 & tokens & _ & _ & E & -> & Hsplit & _).
  assert (Hk : keeps (remove_spaces theme) = true) by now apply keeps_length.
  revert E Hsplit. rewrite base_hashtags_cases.
  destruct (Nat.leb_spec (length (topic_tag topic)) 20) as [Hle|Hgt];
    cbn [app]; rewrite tokens_of_head by easy; intros E Hsplit;
    eexists _, w2, _; (split; [exact E|]); (split; [exact Hsplit|]).
  - intros [Hlo _] Hne.
    assert (Hkt : keeps (topic_tag topic) = true) by now apply keeps_length.
    cbn [filter]. rewrite Hkt. cbn [map fromkeys_from existsb].
    destruct (str_eqb (hash :: topic_tag topic) (hash :: remove_spaces theme))
      eqn:Eq.
    + apply str_eqb_eq in Eq. injection Eq as Eq. contradiction.
    + cbn [orb firstn]. eauto.
  - intros [_ Hhi]. lia.
Qed.

(** X13. Every token of the output is [#] followed by the theme tag,
    the topic tag, a tag of the pool of the theme's hashtag category,
    or a generic tag; a theme without a hashtag category gets at most
    four tokens. *)
Theorem hashtags_provenance (topic theme : str) (w : world) :
  exists out w',
    generate_hashtags topic theme w = Returns (out, w') /\
    (forall t, In t (split_on space out) ->
       exists body,
         t = hash :: body /\
         (body = remove_spaces theme \/ body = topic_tag topic \/
          (exists key pool, hashtag_category theme = Some (key, pool) /\
                            In body pool) \/
          In body general_hashtags)) /\
    (hashtag_category theme = None -> length (split_on space out) <= 4).
Proof.
  destruct (generate_hashtags_tokens topic theme w)
    as (specific & w1 & g1 & g2 & w2 & tokens & Es & Eg & E & -> & Hsplit & _).
  pose proof (theme_specific_members _ _ _ _ Es) as Hm.
  destruct (sample_spec general_hashtags 2 w1)
    as (l & w' & Eg' & _ & others & Hp); [simpl; lia|].
  assert (l = [g1; g2]) as -> by congruence.
  exists (join [space] (tokens_of (base_hashtags topic theme ++ specific ++
                                   [g1; g2]))), w2.
  split; [exact E|]. rewrite Hsplit. split.
  - intros t Ht.
    destruct (tokens_of_spec (base_hashtags topic theme ++ specific ++ [g1; g2]))
      as (_ & _ & Hbody).
    destruct (Hbody t Ht) as (body & -> & _ & Hin).
    exists body. split; [easy|].
    apply in_app_or in Hin as [Hin|Hin].
    + rewrite base_hashtags_cases in Hin.
      destruct (length (topic_tag topic) <=? 20); simpl in Hin; intuition.
    + apply in_app_or in Hin as [Hin|Hin].
      * right; right; left.
        destruct (hashtag_category theme) as [[key pool]|];
          [|subst specific; easy].
        exists key, pool. split; [easy | now apply Hm].
      * right; right; right.
        apply (Permutation_in _ (Permutation_sym Hp)). apply in_or_app. now left.
  - intros Hnone. rewrite Hnone in Hm. subst specific.
    pose proof (tokens_of_length (base_hashtags topic theme ++ [] ++ [g1; g2])) as Hl.
    destruct (base_hashtags_spec topic theme) as [Hb _].
    rewrite !length_app in Hl. simpl in Hl |- *. unfold str, char in *. lia.
Qed.

End Placement.

Lemma hashtags_placement_witness :
  2 < length (remove_spaces (py "Home Cooking")) /\
  exists out w' rest,
    generate_hashtags (py "one-pot meals") (py "Home Cooking")
      (world_of [6; 2] TopicsRaised Raised) = Returns (out, w') /\
    split_on space out = (hash :: remove_spaces (py "Home Cooking")) :: rest /\
    (2 < length (topic_tag (py "one-pot meals")) <= 20 ->
     topic_tag (py "one-pot meals") <> remove_spaces (py "Home Cooking") ->
     exists rest', rest = (hash :: topic_tag (py "one-pot meals")) :: rest').
Proof.
  split; [vm_compute; lia|].
  apply (hashtags_placement (py "one-pot meals") (py "Home Cooking")
           (world_of [6; 2] TopicsRaised Raised)).
  vm_compute. lia.
Defined.

(* ================================================================== *)
(** * Words of a cleaned caption and tokens of accepted hashtags *)
(* ================================================================== *)

Lemma split_run_word (word : str) : forall cur s,
  (forall c, In c word -> isspace c = false) ->
  split_run cur (word ++ s) = split_run (rev word ++ cur) s.
Proof.
  induction word as [|c word IH]; intros cur s Hw; [reflexivity|].
  simpl. rewrite (Hw c) by now left.
  rewrite IH by (intros c' Hc'; apply Hw; now right).
  now rewrite <- app_assoc.
Qed.

Lemma flush_word (word : str) : word <> [] -> flush (rev word ++ []) = [word].
Proof.
  intros Hne. rewrite app_nil_r. unfold flush.
  destruct (rev word) as [|c r] eqn:E.
  - apply (f_equal (@rev char)) in E. rewrite rev_involutive in E. easy.
  - now rewrite <- E, rev_involutive.
Qed.

(** Splitting at whitespace undoes joining words by single spaces. *)
Lemma split_join (words : list str) :
  (forall word, In word words ->
                word <> [] /\ forall c, In c word -> isspace c = false) ->
  split (join [space] words) = words.
Proof.
  unfold split.
  induction words as [|word [|word2 rest] IH]; intros Hw; [reflexivity| |].
  - destruct (Hw word) as [Hne Hc]; [now left|].
    cbn [join]. rewrite <- (app_nil_r word) at 1.
    rewrite split_run_word by easy. cbn [split_run]. now apply flush_word.
  - destruct (Hw word) as [Hne Hc]; [now left|].
    change (join [space] (word :: word2 :: rest))
      with (word ++ space :: join [space] (word2 :: rest)).
    rewrite split_run_word by easy. cbn [split_run].
    change (isspace space) with true. cbv iota.
    rewrite flush_word by easy. cbn [app]. f_equal.
    apply IH. intros w Hin. apply Hw. now right.
Qed.

Lemma filter_twice {A} (p : A -> bool) (l : list A) :
  filter p (filter p l) = filter p l.
Proof.
  induction l as [|a l IH]; simpl; [easy|].
  destruct (p a) eqn:E; simpl; [rewrite E; now f_equal | easy].
Qed.

(** X14. The words of a cleaned caption are exactly the words of the
    response that do not start with [#], in their order; so none of its
    words starts with [#], and cleaning a second time changes nothing. *)
Theorem drop_hashtags_words (caption : str) :
  split (drop_hashtags caption)
    = filter (fun word => negb (startswith [hash] word)) (split caption) /\
  (forall word, In word (split (drop_hashtags caption)) ->
                startswith [hash] word = false) /\
  drop_hashtags (drop_hashtags caption) = drop_hashtags caption.
Proof.
  assert (E : split (drop_hashtags caption)
              = filter (fun word => negb (startswith [hash] word))
                       (split caption)).
  { unfold drop_hashtags. change (py " ") with [space].
    apply split_join. intros word Hin. apply filter_In in Hin as [Hin _].
    apply split_run_words in Hin; easy. }
  split; [exact E|]. split.
  - intros word Hin. rewrite E in Hin. apply filter_In in Hin as [_ Hin].
    now apply negb_true_iff in Hin.
  - unfold drop_hashtags at 1. rewrite E. now rewrite filter_twice.
Qed.

Section AcceptedHashtags.
Context {U : Unicode}.

Lemma isword_space : isword space = false.
Proof. now rewrite isword_ascii. Qed.

Lemma findall_hashtags_shape (s : str) : forall cur m,
  match cur with
  | Some acc => Forall (fun c => isword c = true) acc
  | None => True
  end ->
  In m (findall_hashtags cur s) ->
  exists body, m = hash :: body /\ body <> [] /\
               Forall (fun c => isword c = true) body.
Proof.
  assert (Hemit : forall cur m,
             match cur with
             | Some acc => Forall (fun c => isword c = true) acc
             | None => True
             end ->
             In m (emit cur) ->
             exists body, m = hash :: body /\ body <> [] /\
                          Forall (fun c => isword c = true) body).
  { intros [[|c acc]|] m Hcur; simpl; try easy. intros [<-|[]].
    exists (rev acc ++ [c]). repeat split.
    - intros F. now apply app_eq_nil in F as [_ F].
    - apply Forall_app. split; [apply Forall_rev; now inversion Hcur|].
      constructor; [now inversion Hcur | constructor]. }
  induction s as [|c s IH]; intros cur m Hcur; cbn [findall_hashtags].
  - now apply Hemit.
  - assert (Hrestart : match (if N.eqb c hash then Some [] else None) with
                       | Some acc => Forall (fun c => isword c = true) acc
                       | None => True
                       end) by now destruct (N.eqb c hash).
    destruct cur as [acc|].
    + destruct (isword c) eqn:Ew.
      * apply IH. now constructor.
      * intros Hin. apply in_app_or in Hin as [Hin|Hin];
          [now apply (Hemit (Some acc)) | now apply (IH _ _ Hrestart)].
    + now apply IH.
Qed.

(** X15. The hashtags accepted from the model are the first five
    [#word] matches of the response in their order: between 3 and 5
    tokens, each a [#] followed by at least one word character.
    Repeated matches are kept as they are. *)
Theorem accepted_hashtags_shape (self : LLMContentGenerator)
    (topic theme : str) (w : world) (s : str) :
  use_llm self = true ->
  text_service w (asked w) = Text s ->
  3 <= length (findall_hashtags None (strip s)) ->
  exists out,
    generate_hashtags_with_llm self topic theme w = Returns (out, advance w) /\
    split_on space out = firstn 5 (findall_hashtags None (strip s)) /\
    3 <= length (split_on space out) <= 5 /\
    forall t, In t (split_on space out) ->
              exists body, t = hash :: body /\ body <> [] /\
                           Forall (fun c => isword c = true) body.
Proof.
  intros Hu Ht Hlen.
  set (found := findall_hashtags None (strip s)) in *.
  assert (Hshape : forall t, In t (firstn 5 found) ->
             exists body, t = hash :: body /\ body <> [] /\
                          Forall (fun c => isword c = true) body).
  { intros t Hin. apply firstn_incl in Hin.
    now apply (findall_hashtags_shape (strip s) None). }
  assert (Hsplit : split_on space (join [space] (firstn 5 found))
                   = firstn 5 found).
  { apply split_on_join.
    - intros F. apply (f_equal (@length str)) in F.
      rewrite length_firstn in F. cbn [length] in F. lia.
    - intros t Hin. destruct (Hshape t Hin) as (body & -> & _ & Hw).
      intros [F|F]; [discriminate F|].
      rewrite Forall_forall in Hw. apply Hw in F.
      now rewrite isword_space in F. }
  exists (join [space] (firstn 5 found)). rewrite Hsplit.
  split; [|split; [reflexivity | split;
                   [rewrite length_firstn; unfold str, char in *; lia | easy]]].
  unfold generate_hashtags_with_llm. rewrite Hu. cbn [negb].
  unfold bind, request_text. rewrite Ht. fold found.
  destruct (strip s) as [|c hashtags] eqn:Es.
  - subst found. simpl in Hlen. lia.
  - destruct (Nat.leb_spec 3 (length found)); [|lia].
    now rewrite slice_to_nonneg by lia.
Qed.

End AcceptedHashtags.

Lemma accepted_hashtags_shape_witness :
  use_llm (mkGenerator true) = true /\
  text_service (world_of [0] TopicsRaised (Text (py "#run #run, #Fit_1 today")))
    (asked (world_of [0] TopicsRaised (Text (py "#run #run, #Fit_1 today"))))
    = Text (py "#run #run, #Fit_1 today") /\
  3 <= length (findall_hashtags None (strip (py "#run #run, #Fit_1 today"))) /\
  exists out,
    generate_hashtags_with_llm (mkGenerator true) (py "Yoga") (py "Fitness")
      (world_of [0] TopicsRaised (Text (py "#run #run, #Fit_1 today")))
    = Returns (out, advance (world_of [0] TopicsRaised
                               (Text (py "#run #run, #Fit_1 today")))) /\
    split_on space out
    = firstn 5 (findall_hashtags None (strip (py "#run #run, #Fit_1 today"))).
Proof.
  split; [reflexivity|]. split; [reflexivity|]. split; [vm_compute; lia|].
  destruct (accepted_hashtags_shape (mkGenerator true) (py "Yoga")
              (py "Fitness")
              (world_of [0] TopicsRaised (Text (py "#run #run, #Fit_1 today")))
              (py "#run #run, #Fit_1 today") eq_refl eq_refl)
    as (out & E & Hs & _); [vm_compute; lia|].
  exists out. split; [exact E | exact Hs].
Defined.

(* ================================================================== *)
(** * Entry points *)
(* ================================================================== *)

Section Downgrade.
Context {U : Unicode}.

(** X16. The enhanced entry point is the rule-based one unless a model
    is really loaded: when it is called without [use_llm], or with no
    model path, an empty path, a path of no existing file, or a model
    that fails to load, it returns what [generate_content_plan]
    returns (the same state and the same rows for the CSV file) and
    leaves the same world. *)
Theorem enhanced_without_model_is_rule_based (h : host) (brand_theme : str)
    (days : Z) (model_path : option str) (use_llm : bool) (w : world) :
  (use_llm = false \/
   forall path, model_path = Some path ->
                path = [] \/ path_exists h path = false \/
                model_loads h path = false) ->
  generate_enhanced_content_plan_function h brand_theme days model_path
    use_llm w
  = generate_content_plan brand_theme days w.
Proof.
  intros H.
  unfold generate_enhanced_content_plan_function, generate_content_plan,
    EnhancedContentCreatorWorkflow_init, generate_enhanced_content_plan.
  cbn [llm_generator self_brand_theme self_days].
  destruct use_llm; [|reflexivity].
  destruct H as [H|H]; [discriminate H|].
  enough (E : create_llm_generator h model_path false = mkGenerator false)
    by now rewrite E.
  unfold create_llm_generator, LLMContentGenerator_init.
  destruct model_path as [[|c path]|]; try reflexivity.
  destruct (H (c :: path) eq_refl) as [F|[F|F]]; [discriminate F| |].
  - now rewrite F.
  - rewrite F. now destruct (path_exists h (c :: path)).
Qed.

End Downgrade.

Lemma enhanced_without_model_is_rule_based_witness :
  (true = false \/
   forall path, Some (py "models/missing.gguf") = Some path ->
                path = [] \/
                path_exists (mkHost (fun _ => false) (fun _ => true) None) path
                  = false \/
                model_loads (mkHost (fun _ => false) (fun _ => true) None) path
                  = false) /\
  generate_enhanced_content_plan_function
    (mkHost (fun _ => false) (fun _ => true) None) (py "Fitness") 3
    (Some (py "models/missing.gguf")) true
    (world_of [1; 2; 3] TopicsRaised Raised)
  = generate_content_plan (py "Fitness") 3
      (world_of [1; 2; 3] TopicsRaised Raised).
Proof.
  split; [right; intros path _; right; now left|].
  apply (enhanced_without_model_is_rule_based
           (mkHost (fun _ => false) (fun _ => true) None) (py "Fitness") 3
           (Some (py "models/missing.gguf")) true
           (world_of [1; 2; 3] TopicsRaised Raised)).
  right; intros path _; right; now left.
Defined.

(* ================================================================== *)
(** * The theme in the name of the downloaded file *)
(* ================================================================== *)

Lemma lstrip_incl (s : str) (c : char) : In c (lstrip s) -> In c s.
Proof.
  induction s as [|a s IH]; simpl; [easy|].
  destruct (isspace a); [intros H; right; now apply IH | easy].
Qed.

Lemma strip_incl (s : str) (c : char) : In c (strip s) -> In c s.
Proof.
  unfold strip. intros H. apply in_rev in H. apply lstrip_incl in H.
  apply in_rev in H. now apply lstrip_incl in H.
Qed.

Lemma squeeze_whitespace_chars (s : str) : forall in_run c,
  In c (squeeze_whitespace in_run s) ->
  c = underscore \/ (In c s /\ isspace c = false).
Proof.
  induction s as [|a s IH]; intros in_run c; simpl; [easy|].
  destruct (isspace a) eqn:Ea.
  - destruct in_run; simpl.
    + intros H. apply IH in H as [H|[H1 H2]]; auto.
    + intros [<-|H]; [now left|]. apply IH in H as [H|[H1 H2]]; auto.
  - simpl. intros [<-|H]; [right; auto|].
    apply IH in H as [H|[H1 H2]]; auto.
Qed.

Lemma ascii_enumerated (c : char) :
  is_ascii c -> In c (map N.of_nat (seq 0 128)).
Proof.
  unfold is_ascii. intros H. apply in_map_iff. exists (N.to_nat c).
  split; [apply N2Nat.id|]. apply in_seq. lia.
Qed.

(** An ASCII word character or hyphen, lower-cased, is a lower-case
    letter, a digit, an underscore or a hyphen. *)
Lemma lowered_word_char (c : char) :
  is_ascii c -> ascii_isword c = true \/ c = hyphen ->
  filename_char (ascii_lower c) = true.
Proof.
  intros Ha Hw.
  assert (Hall : forallb (fun c => negb (ascii_isword c || N.eqb c hyphen)
                                   || filename_char (ascii_lower c))
                         (map N.of_nat (seq 0 128)) = true) by now vm_compute.
  rewrite forallb_forall in Hall.
  specialize (Hall c (ascii_enumerated c Ha)).
  destruct Hw as [Hw| ->]; [|reflexivity].
  rewrite Hw in Hall. exact Hall.
Qed.

Section FileName.
Context {U : Unicode}.

(** X17. For an ASCII theme, the sanitized theme that enters the file
    name has at most 50 characters, all of them lower-case letters,
    digits, underscores or hyphens: it has no whitespace, no dot and no
    path separator. *)
Theorem sanitized_theme_safe (theme : str) :
  Forall is_ascii theme ->
  length (sanitized_theme theme) <= 50 /\
  Forall (fun c => filename_char c = true) (sanitized_theme theme).
Proof.
  intros Ha. rewrite Forall_forall in Ha.
  unfold sanitized_theme. rewrite slice_to_nonneg by lia.
  change (Z.to_nat 50) with 50.
  split; [apply firstn_le_length|].
  set (squeezed := squeeze_whitespace false (remove_special (strip theme))).
  assert (Hs : forall c, In c squeezed ->
                         is_ascii c /\ (ascii_isword c = true \/ c = hyphen)).
  { intros c Hc. apply squeeze_whitespace_chars in Hc as [->|[Hc Hsp]].
    - split; [reflexivity | now left].
    - apply filter_In in Hc as [Hc Hk]. apply strip_incl in Hc.
      pose proof (Ha c Hc) as Hac. split; [easy|].
      rewrite Hsp, orb_false_r, isword_ascii in Hk by easy.
      apply orb_prop in Hk as [Hk|Hk]; [now left|].
      right. now apply N.eqb_eq. }
  rewrite lower_ascii by (apply Forall_forall; intros c Hc; now apply Hs).
  apply Forall_forall. intros c Hc. apply firstn_incl in Hc.
  apply in_map_iff in Hc as (x & <- & Hx).
  destruct (Hs x Hx) as [Hax Hwx]. now apply lowered_word_char.
Qed.

End FileName.

Lemma sanitized_theme_safe_witness :
  Forall is_ascii (py "  Fitness & Health!  for   Pros ") /\
  sanitized_theme (py "  Fitness & Health!  for   Pros ")
    = py "fitness_health_for_pros" /\
  Forall (fun c => filename_char c = true)
         (sanitized_theme (py "  Fitness & Health!  for   Pros ")).
Proof.
  split; [now apply ascii_check|]. split; [now vm_compute|].
  apply (sanitized_theme_safe (py "  Fitness & Health!  for   Pros ")).
  now apply ascii_check.
Defined.

(* ================================================================== *)
(** * Accepted topics and longer calendars *)
(* ================================================================== *)

Lemma lstrip_head (s : str) (c : char) (r : str) :
  lstrip s = c :: r -> isspace c = false.
Proof.
  induction s as [|a s IH]; simpl; [easy|].
  destruct (isspace a) eqn:Ea; [exact IH | now intros [= <- _]].
Qed.

Lemma lstrip_fixed (s : str) :
  match s with
  | [] => True
  | c :: _ => isspace c = false
  end -> lstrip s = s.
Proof. destruct s as [|c s]; simpl; [easy | now intros ->]. Qed.

Lemma lstrip_suffix (s : str) : exists pre, s = pre ++ lstrip s.
Proof.
  induction s as [|a s [pre IH]]; simpl; [now exists []|].
  destruct (isspace a); [|now exists []].
  exists (a :: pre). simpl. now f_equal.
Qed.

(** What [strip] returns has no whitespace left to strip. *)
Lemma strip_strip (s : str) : strip (strip s) = strip s.
Proof.
  unfold strip. set (x := lstrip s). set (L := lstrip (rev x)).
  assert (HL : lstrip L = L).
  { apply lstrip_fixed. destruct L as [|c r] eqn:E; [easy|].
    now apply (lstrip_head (rev x) c r). }
  assert (Hr : lstrip (rev L) = rev L).
  { apply lstrip_fixed. destruct (rev L) as [|c r] eqn:E; [easy|].
    destruct (lstrip_suffix (rev x)) as [pre Hpre]. fold L in Hpre.
    apply (f_equal (@rev char)) in Hpre.
    rewrite rev_involutive, rev_app_distr, E in Hpre.
    apply (lstrip_head s c (r ++ rev pre)). exact Hpre. }
  now rewrite Hr, rev_involutive, HL.
Qed.

Lemma clean_entries (items : list json) (t : str) :
  In t (clean items) ->
  t <> [] /\ exists s, In (JString s) items /\ t = strip s.
Proof.
  induction items as [|[s|] items IH]; simpl; [easy| |].
  - destruct (strip s) as [|c r] eqn:E; simpl.
    + intros H. destruct (IH H) as (Hne & s' & Hin & Ht).
      split; [easy|]. exists s'. auto.
    + intros [<-|H].
      * split; [easy|]. exists s. auto.
      * destruct (IH H) as (Hne & s' & Hin & Ht).
        split; [easy|]. exists s'. auto.
  - intros H. destruct (IH H) as (Hne & s' & Hin & Ht).
    split; [easy|]. exists s'. auto.
Qed.

Section AcceptedTopics.
Context {U : Unicode}.

(** X18. The topics accepted from the model are at most [num_days];
    each is a string of the decoded array trimmed of its surrounding
    whitespace, is not empty, and has no whitespace left at either
    end. *)
Theorem accepted_topics_clean (self : LLMContentGenerator) (theme : str)
    (num_days : Z) (w : world) (items : list json) :
  use_llm self = true ->
  (0 <= num_days)%Z ->
  topics_service w (asked w) = TopicsDecoded items ->
  (num_days / 2 <= Z.of_nat (length (clean (slice_to num_days items))))%Z ->
  exists l,
    generate_topics_with_llm self theme num_days w = Returns (l, advance w) /\
    (Z.of_nat (length l) <= num_days)%Z /\
    forall t, In t l ->
              t <> [] /\ strip t = t /\
              exists s, In (JString s) items /\ t = strip s.
Proof.
  intros Hu Hn Ht Hacc. destruct self as [[|]]; [|discriminate Hu].
  destruct (generate_topics_with_llm_cases theme num_days w Hn)
    as (l & E & Hcase).
  rewrite Ht in Hcase. cbv zeta in Hcase.
  destruct (Z.leb_spec (num_days / 2)
              (Z.of_nat (length (clean (slice_to num_days items)))));
    [|lia].
  subst l. eexists. split; [exact E|]. split.
  - pose proof (clean_length (slice_to num_days items)).
    pose proof (slice_to_length_le num_days items Hn). lia.
  - intros t Hin. apply clean_entries in Hin as (Hne & s & Hin & ->).
    split; [easy|]. split; [apply strip_strip|].
    exists s. split; [|easy].
    rewrite slice_to_nonneg in Hin by easy. now apply firstn_incl in Hin.
Qed.

(** X19. Asking for more days keeps the days there were: for day counts
    [0 <= n <= m] the topics of the [n]-day plan are the first [n]
    topics of the [m]-day plan. *)
Theorem topics_prefix (theme : str) (n m : Z) :
  (0 <= n <= m)%Z ->
  exists ln lm,
    generate_topic_ideas theme n = Returns ln /\
    generate_topic_ideas theme m = Returns lm /\
    ln = firstn (Z.to_nat n) lm.
Proof.
  intros Hnm. destruct (theme_key theme) as [key|] eqn:Hk.
  - destruct (known_topics theme key n Hk) as (pool & ln & Hp & _ & En & Hln & Hcn);
      [lia|].
    destruct (known_topics theme key m Hk) as (pool' & lm & Hp' & _ & Em & Hlm & Hcm);
      [lia|].
    assert (pool' = pool) as -> by congruence.
    exists ln, lm. repeat split; try easy.
    apply nth_error_ext. intros i. rewrite nth_error_firstn.
    destruct (Nat.ltb_spec i (Z.to_nat n)).
    + rewrite Hcn, Hcm by lia. reflexivity.
    + apply nth_error_None. lia.
  - destruct (unknown_topics theme n Hk) as (ln & En & Hln & Hbn).
    destruct (unknown_topics theme m Hk) as (lm & Em & Hlm & Hbm).
    exists ln, lm. repeat split; try easy.
    apply nth_error_ext. intros i. rewrite nth_error_firstn.
    destruct (Nat.ltb_spec i (Z.to_nat n)).
    + destruct (Hbn i) as (b & Hb & ->); [lia|].
      destruct (Hbm i) as (b' & Hb' & ->); [lia|]. congruence.
    + apply nth_error_None. unfold str in *. lia.
Qed.

End AcceptedTopics.

Lemma accepted_topics_clean_witness :
  use_llm (mkGenerator true) = true /\ (0 <= 3)%Z /\
  exists l,
    generate_topics_with_llm (mkGenerator true) (py "Fitness") 3
      (world_of [0]
         (TopicsDecoded [JString (py "  Core day "); JOther; JString (py "   ");
                         JString (py "Rest")])
         Raised)
    = Returns (l, advance (world_of [0]
         (TopicsDecoded [JString (py "  Core day "); JOther; JString (py "   ");
                         JString (py "Rest")])
         Raised)) /\
    (Z.of_nat (length l) <= 3)%Z.
Proof.
  split; [reflexivity|]. split; [lia|].
  destruct (accepted_topics_clean (mkGenerator true) (py "Fitness") 3
              (world_of [0]
                 (TopicsDecoded [JString (py "  Core day "); JOther;
                                 JString (py "   "); JString (py "Rest")])
                 Raised)
              [JString (py "  Core day "); JOther; JString (py "   ");
               JString (py "Rest")] eq_refl)
    as (l & E & Hl & _); [lia | reflexivity | vm_compute; discriminate|].
  exists l. split; [exact E | exact Hl].
Defined.

Lemma topics_prefix_witness :
  (0 <= 7 <= 40)%Z /\
  exists ln lm,
    generate_topic_ideas (py "Business Tips") 7 = Returns ln /\
    generate_topic_ideas (py "Business Tips") 40 = Returns lm /\
    ln = firstn (Z.to_nat 7) lm.
Proof.
  split; [lia|]. apply (topics_prefix (py "Business Tips") 7 40). lia.
Defined.
